(** * Tools submodule of the editor: registry, preparation and cached views

    A shallow embedding of [src/components/modules/tools.ts].

    The class [Tools] becomes a record of its fields, its methods become
    functions that take the record and return the updated one.  Everything
    a plugin can do while one of its hooks runs is kept abstract as a
    transformation of a [World]; hooks are total, so a hook that never
    settles is outside the model.

    JavaScript objects that the module uses as dictionaries (the tools
    configuration, the table of internal tools) are association lists of
    their own enumerable properties, in property-enumeration order; the
    names that every object inherits from [Object.prototype] are kept apart
    and are seen by the [in] operator only.  Tool names are taken not to be
    integer-like (those are enumerated first by the engine) and not
    [__proto__] as a key that is written (assigning it sets the prototype).
    An entry of the configuration is any JavaScript value: a constructor, an
    object, a primitive, [null] or [undefined]. *)

From Stdlib Require Import List String Bool Arith Lia.
Import ListNotations.
Open Scope string_scope.
Open Scope list_scope.

Set Implicit Arguments.

(** ** JavaScript [Map] objects *)

Module JsMap.

(** A [Map] keeps its entries in an internal slot, in insertion order and
    with one entry per key; [set], [get], [has] and [entries] work on that
    slot.  Like any object a [Map] also has own properties, which are what
    [Object.keys] and [Object.values] list; the entries are not among them,
    and [new Map] creates an object without own properties. *)
Record t (V : Type) : Type := Build {
entries : list (string * V);
own_props : list (string * V)
}.

Arguments Build {V} _ _.
Arguments entries {V} _.
Arguments own_props {V} _.

Section Ops.
Context {V : Type}.

(** [new Map()] *)
Definition empty : t V := Build [] [].

Fixpoint set_entry (k : string) (v : V) (l : list (string * V)) : list (string * V) :=
  match l with
  | [] => [(k, v)]
  | (k', v') :: rest =>
      if String.eqb k k' then (k, v) :: rest else (k', v') :: set_entry k v rest
  end.

(** [m.set(k, v)]: an existing key keeps its position. *)
Definition set (k : string) (v : V) (m : t V) : t V :=
  Build (set_entry k v (entries m)) (own_props m).

Fixpoint lookup (k : string) (l : list (string * V)) : option V :=
  match l with
  | [] => None
  | (k', v) :: rest => if String.eqb k k' then Some v else lookup k rest
  end.

(** [m.get(k)] *)
Definition get (k : string) (m : t V) : option V := lookup k (entries m).

(** [m.has(k)] *)
Definition has (k : string) (m : t V) : bool :=
  match get k m with Some _ => true | None => false end.

(** [new Map(iterable)]: the pairs are added with [set], one after the other. *)
Definition from (l : list (string * V)) : t V :=
  fold_left (fun m kv => set (fst kv) (snd kv) m) l empty.

(** [m.size] *)
Definition size (m : t V) : nat := List.length (entries m).

Definition keys (m : t V) : list string := map fst (entries m).

(** [Object.values(m)]: the values of the own enumerable properties. *)
Definition Object_values (m : t V) : list V := map snd (own_props m).

Fixpoint nodupb (l : list string) : bool :=
  match l with
  | [] => true
  | k :: rest => negb (existsb (String.eqb k) rest) && nodupb rest
  end.

(** The representation invariant of the entries: one entry per key. *)
Definition ok (m : t V) : bool := nodupb (keys m).

End Ops.

End JsMap.

(** ** Plugins and configuration *)

(** [enum ToolType { Block, Inline, Tune }] *)
Inductive ToolType : Set := Block | Inline | Tune.

(** The number behind each enum member: [Block] is [0]. *)
Definition ToolType_value (t : ToolType) : nat :=
  match t with Block => 0 | Inline => 1 | Tune => 2 end.

Definition ToolType_eqb (a b : ToolType) : bool :=
  Nat.eqb (ToolType_value a) (ToolType_value b).

(** How an awaited hook settles; a hook that throws and one that returns a
    rejected promise both count as [Rejected]. *)
Inductive HookOutcome : Set := Fulfilled | Rejected.

(** What the module can throw synchronously. *)
Inductive Thrown : Set :=
| ConfigError (toolName : string)
    (* Tool «toolName» must be a constructor function or an object with
       function in the «class» property *)
| CantStartWithoutTools
    (* Can't start without tools *)
| TypeError.
    (* a property read on [null] or [undefined] *)

Section Model.

(** Everything outside the editor that a plugin hook can read or change. *)
Variable World : Type.

Definition Hook : Type := World -> HookOutcome * World.

(** The plugin contract the module consumes: a constructor with an optional
    static [prepare({toolName})], the variant its static markers declare, the
    members found on an instance, and an optional [reset]. *)
Record ToolConstructable : Type := {
  static_prepare : option (string -> Hook);
  variant : ToolType;
  members : list string;
  static_reset : option Hook
}.

(** The value of the [class] field of a settings object, when it has one:
    a constructor, or some value that is not callable. *)
Inductive ClassValue : Type :=
| ClassFunction (c : ToolConstructable)
| ClassPrimitive.

(** [ToolSettings & { isInternal?: boolean }]; the fields the module never
    reads are left out.  A field is [None] when the object has no such
    property or holds [undefined] or [null] there. *)
Record ToolSettings : Type := {
  class : option ClassValue;
  isInternal : option bool;
  inlineToolbar : option bool
}.

(** An entry of [config.tools]: a bare constructor, a settings object, a
    primitive (number, string, boolean) that is neither, or [null] /
    [undefined]. *)
Inductive ToolEntry : Type :=
| Constructable (c : ToolConstructable)
| Settings (s : ToolSettings)
| Primitive
| Nullish.

(** An object used as a dictionary from tool names, in enumeration order. *)
Definition Dict (A : Type) : Type := list (string * A).

Definition dict_keys {A} (o : Dict A) : list string := map fst o.

(** [Object.prototype.hasOwnProperty.call(o, k)], and [o[k]] *)
Definition dict_has {A} (k : string) (o : Dict A) : bool :=
  existsb (String.eqb k) (dict_keys o).

(** The property names of [Object.prototype], which every object literal
    inherits. *)
Definition object_prototype_keys : list string :=
  [ "constructor"; "hasOwnProperty"; "isPrototypeOf"; "propertyIsEnumerable";
    "toLocaleString"; "toString"; "valueOf"; "__proto__";
    "__defineGetter__"; "__defineSetter__"; "__lookupGetter__"; "__lookupSetter__" ].

Definition inherited_name (k : string) : bool :=
  existsb (String.eqb k) object_prototype_keys.

(** [k in o], for an object literal [o]: an own property or an inherited one. *)
Definition js_in {A} (k : string) (o : Dict A) : bool :=
  dict_has k o || inherited_name k.

Definition dict_get {A} (k : string) (o : Dict A) : option A :=
  JsMap.lookup k o.

(** [o[k] = v]: an existing key keeps its place, a new one goes last. *)
Definition dict_set {A} (k : string) (v : A) (o : Dict A) : Dict A :=
  JsMap.set_entry k v o.

(** [_.isFunction] and [_.isObject] on the values of the model. *)
Definition isFunction_entry (tool : ToolEntry) : bool :=
  match tool with Constructable _ => true | _ => false end.

Definition isFunction_class (v : option ClassValue) : bool :=
  match v with Some (ClassFunction _) => true | _ => false end.

Definition isObject (tool : ToolEntry) : bool :=
  match tool with Settings _ => true | _ => false end.

Definition is_nullish (tool : ToolEntry) : bool :=
  match tool with Nullish => true | _ => false end.

(** [(tool as ToolSettings).class], for a [tool] that is not [null] or
    [undefined] (on those the read throws): [undefined] on a function or a
    primitive. *)
Definition entry_class (tool : ToolEntry) : option ClassValue :=
  match tool with Settings s => class s | _ => None end.

(** *** The tool object the factory hands out ([BaseTool] and its subclasses) *)

Record BaseTool : Type := {
  name : string;
  type : ToolType;
  tool_isInternal : bool;
  instance : list string;        (* the truthy members of [tool.instance()] *)
  reset : option Hook
}.

(** [tool.instance()[method]] read as a condition *)
Definition implements (tool : BaseTool) (method : string) : bool :=
  existsb (String.eqb method) (instance tool).

(** The collaborators imported from elsewhere: the five built-in plugin
    classes and [ToolsFactory]'s [get], which turns the unified configuration
    and a name into the tool object. *)
Record Collaborators : Type := {
  BoldInlineTool : ToolConstructable;
  ItalicInlineTool : ToolConstructable;
  LinkInlineTool : ToolConstructable;
  Paragraph : ToolConstructable;
  Stub : ToolConstructable;
  factory_get : Dict ToolSettings -> string -> BaseTool
}.

Variable X : Collaborators.

(** ** The module state *)

(** A message left on the console by [_.log(..., 'warn', ...)]. *)
Inductive Warning : Type :=
| IncorrectInlineTool (toolName : string) (notImplementedMethods : list string).

(** A reference to a [Map] object allocated by one of the getters. *)
Definition MapRef : Set := nat.

(** The fields of a [Tools] instance.  [config_tools] is [this.config.tools]
    ([None] when the property is missing); [heap] holds the [Map] objects
    that the getters create with [new Map(tools)], a reference being the
    position in it. *)
Record Tools : Type := {
  config_tools : option (Dict ToolEntry);
  factory : option (Dict ToolSettings);
  toolsAvailable : JsMap.t BaseTool;
  toolsUnavailable : JsMap.t BaseTool;
  _inlineTools : option MapRef;
  _blockTools : option MapRef;
  heap : list (JsMap.t BaseTool);
  console : list Warning
}.

(** The field initialisers of the class. *)
Definition new_Tools (tools : option (Dict ToolEntry)) : Tools :=
  {| config_tools := tools; factory := None;
     toolsAvailable := JsMap.empty; toolsUnavailable := JsMap.empty;
     _inlineTools := None; _blockTools := None;
     heap := []; console := [] |}.

Definition stubTool : string := "stub".

Definition set_config_tools (v : option (Dict ToolEntry)) (st : Tools) : Tools :=
  {| config_tools := v; factory := factory st;
     toolsAvailable := toolsAvailable st; toolsUnavailable := toolsUnavailable st;
     _inlineTools := _inlineTools st; _blockTools := _blockTools st;
     heap := heap st; console := console st |}.

Definition set_factory (v : option (Dict ToolSettings)) (st : Tools) : Tools :=
  {| config_tools := config_tools st; factory := v;
     toolsAvailable := toolsAvailable st; toolsUnavailable := toolsUnavailable st;
     _inlineTools := _inlineTools st; _blockTools := _blockTools st;
     heap := heap st; console := console st |}.

Definition set_toolsAvailable (v : JsMap.t BaseTool) (st : Tools) : Tools :=
  {| config_tools := config_tools st; factory := factory st;
     toolsAvailable := v; toolsUnavailable := toolsUnavailable st;
     _inlineTools := _inlineTools st; _blockTools := _blockTools st;
     heap := heap st; console := console st |}.

Definition set_toolsUnavailable (v : JsMap.t BaseTool) (st : Tools) : Tools :=
  {| config_tools := config_tools st; factory := factory st;
     toolsAvailable := toolsAvailable st; toolsUnavailable := v;
     _inlineTools := _inlineTools st; _blockTools := _blockTools st;
     heap := heap st; console := console st |}.

(** [new Map(tools)]: the object goes to the end of the heap. *)
Definition alloc (m : JsMap.t BaseTool) (st : Tools) : MapRef * Tools :=
  (List.length (heap st),
   {| config_tools := config_tools st; factory := factory st;
      toolsAvailable := toolsAvailable st; toolsUnavailable := toolsUnavailable st;
      _inlineTools := _inlineTools st; _blockTools := _blockTools st;
      heap := heap st ++ [m]; console := console st |}).

Definition deref (r : MapRef) (st : Tools) : option (JsMap.t BaseTool) :=
  nth_error (heap st) r.

(** ** Getters *)

Definition available (st : Tools) : JsMap.t BaseTool := toolsAvailable st.

Definition unavailable (st : Tools) : JsMap.t BaseTool := toolsUnavailable st.

Definition inlineToolRequiredMethods : list string :=
  ["render"; "surround"; "checkState"].

Definition notImplementedMethods (tool : BaseTool) : list string :=
  filter (fun method => negb (implements tool method)) inlineToolRequiredMethods.

(** The callback given to [filter] in the [inline] getter: its verdict on an
    entry, and what it logs. *)
Definition inline_filter (entry : string * BaseTool) : bool * list Warning :=
  let tool := snd entry in
  if negb (ToolType_eqb (type tool) Inline) then (false, [])
  else
    match notImplementedMethods tool with
    | [] => (true, [])
    | missing => (false, [IncorrectInlineTool (name tool) missing])
    end.

(** [get inline()] *)
Definition inline (st : Tools) : MapRef * Tools :=
  match _inlineTools st with
  | Some cached => (cached, st)
  | None =>
      let entries := JsMap.entries (available st) in
      let tools := filter (fun e => fst (inline_filter e)) entries in
      let logged := flat_map (fun e => snd (inline_filter e)) entries in
      let r := List.length (heap st) in
      (r,
       {| config_tools := config_tools st; factory := factory st;
          toolsAvailable := toolsAvailable st; toolsUnavailable := toolsUnavailable st;
          _inlineTools := Some r; _blockTools := _blockTools st;
          heap := heap st ++ [JsMap.from tools];
          console := console st ++ logged |})
  end.

(** [get block()] *)
Definition block (st : Tools) : MapRef * Tools :=
  match _blockTools st with
  | Some cached => (cached, st)
  | None =>
      let tools :=
        filter (fun e => ToolType_eqb (type (snd e)) Block)
               (JsMap.entries (available st)) in
      let r := List.length (heap st) in
      (r,
       {| config_tools := config_tools st; factory := factory st;
          toolsAvailable := toolsAvailable st; toolsUnavailable := toolsUnavailable st;
          _inlineTools := _inlineTools st; _blockTools := Some r;
          heap := heap st ++ [JsMap.from tools];
          console := console st |})
  end.

(** The entries that [getInternal] keeps.  The optional argument is used as
    a condition ([if (type)]), and the enum value [0] is falsy. *)
Definition internal_entries (ty : option ToolType) (st : Tools) : list (string * BaseTool) :=
  let tools := filter (fun e => tool_isInternal (snd e)) (JsMap.entries (available st)) in
  match ty with
  | Some t =>
      if Nat.eqb (ToolType_value t) 0 then tools
      else filter (fun e => ToolType_eqb (type (snd e)) t) tools
  | None => tools
  end.

(** [getInternal(type?)] *)
Definition getInternal (ty : option ToolType) (st : Tools) : MapRef * Tools :=
  alloc (JsMap.from (internal_entries ty st)) st.

(** ** Configuration *)

(** [get internalTools()] *)
Definition internalTools : Dict ToolEntry :=
  [ ("bold", Settings {| class := Some (ClassFunction (BoldInlineTool X));
                         isInternal := Some true; inlineToolbar := None |});
    ("italic", Settings {| class := Some (ClassFunction (ItalicInlineTool X));
                           isInternal := Some true; inlineToolbar := None |});
    ("link", Settings {| class := Some (ClassFunction (LinkInlineTool X));
                         isInternal := Some true; inlineToolbar := None |});
    ("paragraph", Settings {| class := Some (ClassFunction (Paragraph X));
                              isInternal := Some true; inlineToolbar := Some true |});
    ("stub", Settings {| class := Some (ClassFunction (Stub X));
                         isInternal := Some true; inlineToolbar := None |}) ].

(** The body of the [for ... in] loop of [validateTools], over the own
    enumerable properties of [config.tools]: [None] when the loop returns or
    runs out, [Some e] when it throws.  In the condition
    [!_.isFunction(tool) && !_.isFunction(tool.class)] the first test holds
    of [null] and [undefined], and reading [tool.class] on them throws. *)
Fixpoint validate_loop (tools : Dict ToolEntry) : option Thrown :=
  match tools with
  | [] => None
  | (toolName, tool) :: rest =>
      if js_in toolName internalTools then None
      else if is_nullish tool then Some TypeError
      else if negb (isFunction_entry tool) && negb (isFunction_class (entry_class tool))
      then Some (ConfigError toolName)
      else validate_loop rest
  end.

(** [validateTools()] *)
Definition validateTools (st : Tools) : option Thrown :=
  match config_tools st with
  | Some tools => validate_loop tools
  | None => None
  end.

(** Modelled from the spec: [_.deepMerge] of [../utils], which is not among
    the sources ("built-in declarations are deep-merged as defaults underneath
    user declarations, so a user entry with the same name overrides individual
    fields rather than replacing the whole built-in descriptor"; "built-in
    tool names always exist in the merged configuration").  This is the merge
    of two settings objects: a field the source leaves out keeps the target's
    value. *)
Definition merge_settings (target source : ToolSettings) : ToolSettings :=
  {| class := match class source with Some c => Some c | None => class target end;
     isInternal := match isInternal source with Some b => Some b | None => isInternal target end;
     inlineToolbar :=
       match inlineToolbar source with Some b => Some b | None => inlineToolbar target end |}.

(** Modelled from the spec: [_.deepMerge], one key.  A settings object of the
    source is laid over a settings object already in the target; any other
    value of the source takes the place of what the target had. *)
Definition merge_entry (target : option ToolEntry) (source : ToolEntry) : ToolEntry :=
  match source, target with
  | Settings s, Some (Settings t) => Settings (merge_settings t s)
  | _, _ => source
  end.

(** Modelled from the spec: [_.deepMerge], one source object, key by key in
    its enumeration order. *)
Definition merge_object (target source : Dict ToolEntry) : Dict ToolEntry :=
  fold_left
    (fun t kv => dict_set (fst kv) (merge_entry (dict_get (fst kv) t) (snd kv)) t)
    source target.

(** Modelled from the spec: [_.deepMerge(target, ...sources)].  The sources
    are merged into the target from left to right; a source that is no object
    ([config.tools] left out) contributes nothing. *)
Definition deepMerge (target : Dict ToolEntry) (sources : list (option (Dict ToolEntry)))
  : Dict ToolEntry :=
  fold_left
    (fun t source => match source with Some o => merge_object t o | None => t end)
    sources target.

(** [prepareConfig()].  [_.isObject] holds of the settings objects only
    (not of functions, primitives, [null] or [undefined]); every other value
    [v] is stored as [{ class: v }]. *)
Definition prepareConfig (st : Tools) : Dict ToolSettings :=
  match config_tools st with
  | None => []
  | Some tools =>
      fold_left
        (fun config kv =>
           match snd kv with
           | Settings s => dict_set (fst kv) s config
           | Constructable c =>
               dict_set (fst kv)
                 {| class := Some (ClassFunction c); isInternal := None; inlineToolbar := None |}
                 config
           | Primitive =>
               dict_set (fst kv)
                 {| class := Some ClassPrimitive; isInternal := None; inlineToolbar := None |}
                 config
           | Nullish =>
               dict_set (fst kv)
                 {| class := None; isInternal := None; inlineToolbar := None |}
                 config
           end)
        tools []
  end.

(** ** Preparation *)

(** An element of the list handed to [_.sequence]; [data] is [{ toolName }]. *)
Record ChainData : Type := {
  function : string -> Hook;
  data : string
}.

(** [(): void => {}] *)
Definition noop : string -> Hook := fun _ w => (Fulfilled, w).

(** [_.isFunction(settings.class.prepare) ? settings.class.prepare : noop],
    for a [class] that is there. *)
Definition prepare_of (cls : ClassValue) : string -> Hook :=
  match cls with
  | ClassFunction c =>
      match static_prepare c with Some hook => hook | None => noop end
  | ClassPrimitive => noop
  end.

(** [getListOfPrepareFunctions(config)]: reading [prepare] on a [class] that
    is undefined throws. *)
Fixpoint getListOfPrepareFunctions (config : Dict ToolSettings) : Thrown + list ChainData :=
  match config with
  | [] => inr []
  | (toolName, settings) :: rest =>
      match class settings with
      | None => inl TypeError
      | Some cls =>
          match getListOfPrepareFunctions rest with
          | inl e => inl e
          | inr toolPreparationList =>
              inr ({| function := prepare_of cls; data := toolName |} :: toolPreparationList)
          end
      end
  end.

(** [success(data)].  [this.factory] is assigned by [prepare] before the
    first callback runs; where it is still undefined the call would throw,
    and the model leaves the registry as it is. *)
Definition success (toolName : string) (st : Tools) : Tools :=
  match factory st with
  | Some config =>
      set_toolsAvailable (JsMap.set toolName (factory_get X config toolName) (toolsAvailable st)) st
  | None => st
  end.

(** [fallback(data)] *)
Definition fallback (toolName : string) (st : Tools) : Tools :=
  match factory st with
  | Some config =>
      set_toolsUnavailable
        (JsMap.set toolName (factory_get X config toolName) (toolsUnavailable st)) st
  | None => st
  end.

(** Modelled from the spec: [_.sequence] of [../utils], which is not among
    the sources.  The entries run strictly one after another, in list order;
    a hook that settles without throwing is followed by the success callback
    on its data, a hook that throws or rejects by the failure callback; the
    failure is contained, the remaining entries still run and the returned
    promise resolves. *)
Fixpoint sequence (chains : list ChainData)
    (onSuccess onFailure : string -> Tools -> Tools)
    (st : Tools) (w : World) : Tools * World :=
  match chains with
  | [] => (st, w)
  | chainData :: rest =>
      match function chainData (data chainData) w with
      | (Fulfilled, w') => sequence rest onSuccess onFailure (onSuccess (data chainData) st) w'
      | (Rejected, w') => sequence rest onSuccess onFailure (onFailure (data chainData) st) w'
      end
  end.

(** What a call of [prepare] comes to: a synchronous throw, or a promise that
    resolves; with it the module state, and the world left by the hooks. *)
Inductive PrepareResult : Type :=
| Threw (e : Thrown) (st : Tools)
| Resolved (st : Tools) (w : World).

(** [prepare()] *)
Definition prepare (st : Tools) (w : World) : PrepareResult :=
  match validateTools st with
  | Some e => Threw e st
  | None =>
      let tools := deepMerge [] [Some internalTools; config_tools st] in
      let st := set_config_tools (Some tools) st in
      if match config_tools st with
         | None => true
         | Some tools => Nat.eqb (List.length (dict_keys tools)) 0
         end
      then Threw CantStartWithoutTools st
      else
        let config := prepareConfig st in
        let st := set_factory (Some config) st in
        match getListOfPrepareFunctions config with
        | inl e => Threw e st
        | inr sequenceData =>
            if Nat.eqb (List.length sequenceData) 0 then Resolved st w
            else
              let (st', w') := sequence sequenceData success fallback st w in
              Resolved st' w'
        end
  end.

(** [prepare()] again, with the helper [_.deepMerge] of [../utils] left
    open: [merge] stands for whatever that helper returns. *)
Definition prepare_with
    (merge : Dict ToolEntry -> list (option (Dict ToolEntry)) -> Dict ToolEntry)
    (st : Tools) (w : World) : PrepareResult :=
  match validateTools st with
  | Some e => Threw e st
  | None =>
      let tools := merge [] [Some internalTools; config_tools st] in
      let st := set_config_tools (Some tools) st in
      if match config_tools st with
         | None => true
         | Some tools => Nat.eqb (List.length (dict_keys tools)) 0
         end
      then Threw CantStartWithoutTools st
      else
        let config := prepareConfig st in
        let st := set_factory (Some config) st in
        match getListOfPrepareFunctions config with
        | inl e => Threw e st
        | inr sequenceData =>
            if Nat.eqb (List.length sequenceData) 0 then Resolved st w
            else
              let (st', w') := sequence sequenceData success fallback st w in
              Resolved st' w'
        end
  end.

(** [destroy()]: each callback calls [tool.reset()] when it is a function;
    whether that call fails is looked at by nobody. *)
Definition destroy (st : Tools) (w : World) : World :=
  fold_left
    (fun w tool => match reset tool with Some hook => snd (hook w) | None => w end)
    (JsMap.Object_values (available st)) w.

(** [get defaultTool()]: [this.block.get(this.config.defaultBlock)].  The
    module never writes [config.defaultBlock]; it is passed as an argument,
    [None] when the configuration leaves it out (no key of the map is
    [undefined], so the lookup finds nothing). *)
Definition defaultTool (defaultBlock : option string) (st : Tools)
  : option BaseTool * Tools :=
  let (r, st') := block st in
  (match deref r st', defaultBlock with
   | Some view, Some toolName => JsMap.get toolName view
   | _, _ => None
   end,
   st').

(** A series of calls of the two callbacks, in order: [(true, N)] stands for
    [success({toolName: N})], [(false, N)] for [fallback({toolName: N})]. *)
Definition replay (calls : list (bool * string)) (st : Tools) : Tools :=
  fold_left
    (fun st (call : bool * string) =>
       if fst call then success (snd call) st else fallback (snd call) st)
    calls st.

(** ** Notions used to state the properties *)

(** The names of the built-in tools, in the order of [internalTools]. *)
Definition builtin_names : list string :=
  ["bold"; "italic"; "link"; "paragraph"; "stub"].

(** The shape [validateTools] asks of an entry. *)
Definition valid_entry (tool : ToolEntry) : bool :=
  isFunction_entry tool || isFunction_class (entry_class tool).

(** The plugin class an entry of the right shape brings. *)
Definition plugin_class (tool : ToolEntry) : option ToolConstructable :=
  match tool with
  | Constructable c => Some c
  | Settings s => match class s with Some (ClassFunction c) => Some c | _ => None end
  | Primitive => None
  | Nullish => None
  end.

(** What [prepareConfig] stores for an entry. *)
Definition unified (tool : ToolEntry) : ToolSettings :=
  match tool with
  | Settings s => s
  | Constructable c =>
      {| class := Some (ClassFunction c); isInternal := None; inlineToolbar := None |}
  | Primitive =>
      {| class := Some ClassPrimitive; isInternal := None; inlineToolbar := None |}
  | Nullish =>
      {| class := None; isInternal := None; inlineToolbar := None |}
  end.

(** The hook that [prepare] runs for a plugin class, and how it settles. *)
Definition prepare_hook (c : ToolConstructable) : string -> Hook :=
  prepare_of (ClassFunction c).

Definition settles (outcome : HookOutcome) (c : ToolConstructable) (toolName : string) : Prop :=
  forall w, fst (prepare_hook c toolName w) = outcome.

Definition is_fulfilled (o : HookOutcome) : bool :=
  match o with Fulfilled => true | Rejected => false end.

(** What [getListOfPrepareFunctions] makes of the built-in tools. *)
Definition builtin_sequence : list ChainData :=
  [ {| function := prepare_hook (BoldInlineTool X); data := "bold" |};
    {| function := prepare_hook (ItalicInlineTool X); data := "italic" |};
    {| function := prepare_hook (LinkInlineTool X); data := "link" |};
    {| function := prepare_hook (Paragraph X); data := "paragraph" |};
    {| function := prepare_hook (Stub X); data := "stub" |} ].

(** None of the [prepare] hooks of the five built-in classes fails. *)
Definition builtin_hooks_succeed : Prop :=
  settles Fulfilled (BoldInlineTool X) "bold" /\
  settles Fulfilled (ItalicInlineTool X) "italic" /\
  settles Fulfilled (LinkInlineTool X) "link" /\
  settles Fulfilled (Paragraph X) "paragraph" /\
  settles Fulfilled (Stub X) "stub".

(** The factory keeps the [isInternal] flag of the configuration entry. *)
Definition factory_keeps_isInternal : Prop :=
  forall config toolName s,
    dict_get toolName config = Some s ->
    tool_isInternal (factory_get X config toolName)
    = match isInternal s with Some b => b | None => false end.

(** Two states of the module that differ at most in the two registry maps. *)
Definition only_maps_differ (st st' : Tools) : Prop :=
  config_tools st' = config_tools st /\ factory st' = factory st /\
  _inlineTools st' = _inlineTools st /\ _blockTools st' = _blockTools st /\
  heap st' = heap st /\ console st' = console st.


(** The configuration [prepare] works on: the built-ins under the user's. *)
Definition merged_tools (user : option (Dict ToolEntry)) : Dict ToolEntry :=
  deepMerge [] [Some internalTools; user].

End Model.

Arguments Threw {World} e st.
Arguments Resolved {World} st w.
Arguments Constructable {World} c.
Arguments Settings {World} s.
Arguments Primitive {World}.
Arguments Nullish {World}.
Arguments ClassFunction {World} c.
Arguments ClassPrimitive {World}.
Arguments noop {World} _ _.

(** ** A concrete world and concrete plugins

    Used to run the model: the world is the list of lines the hooks have
    written, each hook writes one line. *)

Module Demo.

Definition World : Type := list string.

Definition writes (tag : string) (outcome : HookOutcome) : string -> Hook World :=
  fun toolName w => (outcome, (w ++ [String.append tag (String.append " " toolName)])%list).

Definition plugin (v : ToolType) (ms : list string) : ToolConstructable World :=
  {| static_prepare := None; variant := v; members := ms; static_reset := None |}.

Definition with_prepare (outcome : HookOutcome) (c : ToolConstructable World)
  : ToolConstructable World :=
  {| static_prepare := Some (writes "prepare" outcome); variant := variant c;
     members := members c; static_reset := static_reset c |}.

Definition with_reset (c : ToolConstructable World) : ToolConstructable World :=
  {| static_prepare := static_prepare c; variant := variant c; members := members c;
     static_reset := Some (fun w => (Fulfilled, (w ++ ["reset"])%list)) |}.

(** Modelled from the spec: [ToolsFactory] of [../tools/factory], which is
    not among the sources.  It maps a name to the tool object built from the
    entry of that name in the unified configuration: the name, the variant
    and the members of the plugin class, and the [isInternal] flag of the
    entry ([false] when the entry has none).  A [class] that is no plugin
    gives a block tool without members. *)
Definition ToolsFactory_get (config : Dict (ToolSettings World)) (toolName : string)
  : BaseTool World :=
  let settings := dict_get toolName config in
  let flag :=
    match settings with
    | Some s => match isInternal s with Some b => b | None => false end
    | None => false
    end in
  match settings with
  | Some {| class := Some (ClassFunction c) |} =>
      {| name := toolName; type := variant c; tool_isInternal := flag;
         instance := members c; reset := static_reset c |}
  | _ =>
      {| name := toolName; type := Block; tool_isInternal := flag;
         instance := []; reset := None |}
  end.

Definition X : Collaborators World :=
  {| BoldInlineTool := plugin Inline ["render"; "surround"; "checkState"];
     ItalicInlineTool := plugin Inline ["render"; "surround"; "checkState"];
     LinkInlineTool := plugin Inline ["render"; "surround"; "checkState"; "clear"];
     Paragraph := plugin Block ["render"; "save"];
     Stub := plugin Block ["render"; "save"];
     factory_get := ToolsFactory_get |}.

(** Three user tools: the hooks of [header] and [list] succeed, the one of
    [image] fails. *)
Definition Header : ToolConstructable World :=
  with_prepare Fulfilled (plugin Block ["render"; "save"]).

Definition Image : ToolConstructable World :=
  with_prepare Rejected (plugin Block ["render"; "save"]).

Definition List_ : ToolConstructable World :=
  with_prepare Fulfilled (plugin Block ["render"; "save"]).

Definition three_tools : Dict (ToolEntry World) :=
  [ ("header", Constructable Header);
    ("image", Settings {| class := Some (ClassFunction Image); isInternal := None;
                          inlineToolbar := Some true |});
    ("list", Constructable List_) ].

(** Every built-in overridden by a value that is no tool, nothing else given. *)
Definition cleared : Dict (ToolEntry World) :=
  [ ("bold", Primitive); ("italic", Primitive); ("link", Primitive);
    ("paragraph", Primitive); ("stub", Primitive) ].

(** An inline tool with all the required methods, and one without [checkState]. *)
Definition marker : BaseTool World :=
  {| name := "marker"; type := Inline; tool_isInternal := false;
     instance := ["render"; "surround"; "checkState"]; reset := None |}.

Definition broken_marker : BaseTool World :=
  {| name := "brokenMarker"; type := Inline; tool_isInternal := false;
     instance := ["render"; "surround"]; reset := None |}.

Definition two_markers : Tools World :=
  set_toolsAvailable
    (JsMap.set "brokenMarker" broken_marker (JsMap.set "marker" marker JsMap.empty))
    (new_Tools None).

(** A registry whose only user tool has a [reset]. *)
Definition note_config : Dict (ToolEntry World) :=
  [ ("note", Constructable (with_reset (plugin Block ["render"; "save"]))) ].

(** A block tune, and a registry with a tool of every type. *)
Definition anchor : BaseTool World :=
  {| name := "anchor"; type := Tune; tool_isInternal := false;
     instance := ["render"]; reset := None |}.

Definition quote : BaseTool World :=
  {| name := "quote"; type := Block; tool_isInternal := true;
     instance := ["render"; "save"]; reset := None |}.

Definition mixed : Tools World :=
  set_toolsAvailable
    (JsMap.set "anchor" anchor
       (JsMap.set "quote" quote
          (JsMap.set "brokenMarker" broken_marker (JsMap.set "marker" marker JsMap.empty))))
    (set_factory (Some []) (new_Tools None)).

(** Two user tools whose hooks both succeed. *)
Definition two_tools : Dict (ToolEntry World) :=
  [ ("header", Constructable Header); ("list", Constructable List_) ].

(** The module after [new Tools] and a [prepare] that started in the world
    without any line. *)
Definition after_prepare (user : option (Dict (ToolEntry World))) : Tools World :=
  match prepare X (new_Tools user) [] with
  | Resolved st _ => st
  | Threw _ st => st
  end.

(** The same, when [inline] has been read between [new Tools] and [prepare]. *)
Definition after_early_read (user : option (Dict (ToolEntry World))) : Tools World :=
  match prepare X (snd (inline (new_Tools user))) [] with
  | Resolved st _ => st
  | Threw _ st => st
  end.


(** The same, when [defaultTool] has been read between [new Tools] and
    [prepare]. *)
Definition after_early_default (user : option (Dict (ToolEntry World))) : Tools World :=
  match prepare X (snd (defaultTool (Some "paragraph") (new_Tools user))) [] with
  | Resolved st _ => st
  | Threw _ st => st
  end.

End Demo.

(** * Properties *)

Unset Implicit Arguments.

(** ** Association lists and [Map] objects *)

Section DictFacts.

Context {V : Type}.

Implicit Types (k : string) (v : V) (l : list (string * V)).

Lemma existsb_eqb_In k (ks : list string) :
  existsb (String.eqb k) ks = true <-> In k ks.
Proof.
  rewrite existsb_exists; split.
  - intros [x [Hin Heq]]. apply String.eqb_eq in Heq. now subst.
  - intros Hin. exists k. split; [assumption | apply String.eqb_refl].
Qed.

Lemma existsb_eqb_not_In k (ks : list string) :
  existsb (String.eqb k) ks = false <-> ~ In k ks.
Proof.
  rewrite <- existsb_eqb_In. destruct (existsb _ ks); split; congruence.
Qed.

Lemma nodupb_NoDup (ks : list string) : JsMap.nodupb ks = true <-> NoDup ks.
Proof.
  induction ks as [|k ks IH]; simpl.
  - split; [constructor | reflexivity].
  - rewrite andb_true_iff, negb_true_iff, existsb_eqb_not_In, IH.
    split.
    + intros [Hk Hks]. now constructor.
    + intros H. inversion H; subst. now split.
Qed.

Lemma lookup_None_iff k l : JsMap.lookup k l = None <-> ~ In k (map fst l).
Proof.
  induction l as [|[k' v'] l IH]; simpl.
  - tauto.
  - destruct (String.eqb_spec k k') as [->|Hne].
    + split; [discriminate | intros H; exfalso; apply H; now left].
    + rewrite IH. split.
      * intros Hn [Heq|Hin]; [congruence | auto].
      * intros Hn Hin. apply Hn. now right.
Qed.


Lemma In_lookup_Some k v l :
  NoDup (map fst l) -> In (k, v) l -> JsMap.lookup k l = Some v.
Proof.
  induction l as [|[k' v'] l IH]; simpl; [tauto|].
  intros Hnd [Heq|Hin]; inversion Hnd as [|? ? Hk' Hl]; subst.
  - inversion Heq; subst. now rewrite String.eqb_refl.
  - destruct (String.eqb_spec k k') as [->|Hne].
    + exfalso. apply Hk'. apply (in_map fst) in Hin. exact Hin.
    + auto.
Qed.

Lemma lookup_set_entry_same k v l : JsMap.lookup k (JsMap.set_entry k v l) = Some v.
Proof.
  induction l as [|[k' v'] l IH]; simpl.
  - now rewrite String.eqb_refl.
  - destruct (String.eqb_spec k k') as [->|Hne]; simpl.
    + now rewrite String.eqb_refl.
    + destruct (String.eqb_spec k k'); [contradiction | exact IH].
Qed.

Lemma lookup_set_entry_other k k' v l :
  k' <> k -> JsMap.lookup k' (JsMap.set_entry k v l) = JsMap.lookup k' l.
Proof.
  intros Hne. induction l as [|[k0 v0] l IH]; simpl.
  - destruct (String.eqb_spec k' k); [contradiction | reflexivity].
  - destruct (String.eqb_spec k k0) as [->|Hk]; simpl.
    + destruct (String.eqb_spec k' k0); [contradiction | reflexivity].
    + destruct (String.eqb_spec k' k0); [reflexivity | exact IH].
Qed.

Lemma set_entry_fresh k v l :
  ~ In k (map fst l) -> JsMap.set_entry k v l = l ++ [(k, v)].
Proof.
  induction l as [|[k' v'] l IH]; simpl; intros Hn.
  - reflexivity.
  - destruct (String.eqb_spec k k') as [->|Hne].
    + exfalso. apply Hn. now left.
    + f_equal. apply IH. intros Hin. apply Hn. now right.
Qed.

Lemma keys_set_entry_In k k' v l :
  In k' (map fst (JsMap.set_entry k v l)) <-> k' = k \/ In k' (map fst l).
Proof.
  induction l as [|[k0 v0] l IH]; simpl.
  - intuition.
  - destruct (String.eqb_spec k k0) as [->|Hne]; simpl.
    + intuition.
    + rewrite IH. intuition.
Qed.

Lemma keys_set_entry_NoDup k v l :
  NoDup (map fst l) -> NoDup (map fst (JsMap.set_entry k v l)).
Proof.
  induction l as [|[k0 v0] l IH]; simpl; intros Hnd.
  - constructor; [intros [] | constructor].
  - inversion Hnd as [|? ? Hk0 Hl]; subst.
    destruct (String.eqb_spec k k0) as [->|Hne]; simpl.
    + now constructor.
    + constructor; [|auto].
      rewrite keys_set_entry_In. intros [Heq|Hin]; [congruence | contradiction].
Qed.

(** [m.has] after [m.set] *)
Lemma has_set_same k v (m : JsMap.t V) : JsMap.has k (JsMap.set k v m) = true.
Proof.
  unfold JsMap.has, JsMap.get, JsMap.set; simpl.
  now rewrite lookup_set_entry_same.
Qed.

Lemma has_set_other k k' v (m : JsMap.t V) :
  k' <> k -> JsMap.has k' (JsMap.set k v m) = JsMap.has k' m.
Proof.
  intros Hne. unfold JsMap.has, JsMap.get, JsMap.set; simpl.
  now rewrite lookup_set_entry_other.
Qed.


(** Adding pairs with pairwise different keys, none of them present yet,
    appends them. *)
Lemma fold_set_fresh {A : Type} (f : A -> V) (src : list (string * A)) :
  forall (acc : list (string * V)),
  NoDup (map fst acc ++ map fst src) ->
  fold_left (fun t kv => JsMap.set_entry (fst kv) (f (snd kv)) t) src acc
  = acc ++ map (fun kv => (fst kv, f (snd kv))) src.
Proof.
  induction src as [|[k a] src IH]; simpl; intros acc Hnd.
  - now rewrite app_nil_r.
  - rewrite set_entry_fresh.
    + rewrite IH.
      * now rewrite <- app_assoc.
      * rewrite map_app, <- app_assoc. exact Hnd.
    + apply NoDup_remove_2 in Hnd. intros Hin. apply Hnd.
      apply in_or_app. now left.
Qed.

Lemma from_NoDup l :
  NoDup (map fst l) -> JsMap.entries (JsMap.from l) = l.
Proof.
  intros Hnd. unfold JsMap.from.
  assert (H : forall (acc : JsMap.t V),
             NoDup (map fst (JsMap.entries acc ++ l)) ->
             JsMap.entries (fold_left (fun m kv => JsMap.set (fst kv) (snd kv) m) l acc)
             = JsMap.entries acc ++ l).
  { clear Hnd. induction l as [|[k v] l IH]; simpl; intros acc Hacc.
    - now rewrite app_nil_r.
    - rewrite IH; simpl.
      + rewrite set_entry_fresh; [now rewrite <- app_assoc|].
        rewrite map_app in Hacc. simpl in Hacc.
        apply NoDup_remove_2 in Hacc. intros Hin. apply Hacc.
        apply in_or_app. now left.
      + rewrite set_entry_fresh.
        * rewrite <- app_assoc. exact Hacc.
        * rewrite map_app in Hacc. simpl in Hacc.
          apply NoDup_remove_2 in Hacc. intros Hin. apply Hacc.
          apply in_or_app. now left. }
  apply (H JsMap.empty). exact Hnd.
Qed.

Lemma filter_keys_NoDup (p : string * V -> bool) l :
  NoDup (map fst l) -> NoDup (map fst (filter p l)).
Proof.
  induction l as [|[k v] l IH]; simpl; intros Hnd; [constructor|].
  inversion Hnd as [|? ? Hk Hl]; subst.
  destruct (p (k, v)); simpl; [|auto].
  constructor; [|auto].
  intros Hin. apply Hk. apply in_map_iff in Hin. destruct Hin as [[k' v'] [Heq Hin]].
  simpl in Heq; subst. apply filter_In in Hin. destruct Hin as [Hin _].
  apply (in_map fst) in Hin. exact Hin.
Qed.

Lemma NoDup_app_disjoint (l1 l2 : list string) k :
  NoDup (l1 ++ l2) -> In k l2 -> ~ In k l1.
Proof.
  induction l1 as [|x l1 IH]; simpl; intros Hnd Hin; [tauto|].
  inversion Hnd as [|? ? Hx Hrest]; subst.
  intros [->|Hk].
  - apply Hx. apply in_or_app. now right.
  - now apply IH.
Qed.

End DictFacts.

(** Reads [m.has] through the [m.set]s before it, for names known to differ. *)
Ltac has_after_set :=
  repeat first [ rewrite has_set_same | rewrite has_set_other by congruence ].

(** ** The callbacks and the scheduler *)

Section Scheduler.

Variable World : Type.
Variable X : Collaborators World.

Implicit Types (st : Tools World) (w : World) (N toolName : string).

Lemma only_maps_differ_refl st : only_maps_differ st st.
Proof. repeat split. Qed.

Lemma only_maps_differ_trans st1 st2 st3 :
  only_maps_differ st1 st2 -> only_maps_differ st2 st3 -> only_maps_differ st1 st3.
Proof.
  unfold only_maps_differ. intros H1 H2.
  destruct H1 as (a1 & b1 & c1 & d1 & e1 & f1), H2 as (a2 & b2 & c2 & d2 & e2 & f2).
  repeat split; congruence.
Qed.

Lemma success_frame toolName st : only_maps_differ st (success X toolName st).
Proof. unfold success. destruct (factory st); repeat split. Qed.

Lemma fallback_frame toolName st : only_maps_differ st (fallback X toolName st).
Proof. unfold fallback. destruct (factory st); repeat split. Qed.

Lemma success_maps toolName st config :
  factory st = Some config ->
  available (success X toolName st)
  = JsMap.set toolName (factory_get X config toolName) (available st)
  /\ unavailable (success X toolName st) = unavailable st.
Proof. intros H. unfold success. rewrite H. split; reflexivity. Qed.

Lemma fallback_maps toolName st config :
  factory st = Some config ->
  unavailable (fallback X toolName st)
  = JsMap.set toolName (factory_get X config toolName) (unavailable st)
  /\ available (fallback X toolName st) = available st.
Proof. intros H. unfold fallback. rewrite H. split; reflexivity. Qed.

(** One step of the scheduler, by the outcome of the hook. *)
Lemma sequence_step (c : ChainData World) rest st w :
  sequence (c :: rest) (success X) (fallback X) st w
  = sequence rest (success X) (fallback X)
      (if is_fulfilled (fst (function c (data c) w))
       then success X (data c) st else fallback X (data c) st)
      (snd (function c (data c) w)).
Proof.
  simpl. destruct (function c (data c) w) as [[|] w1]; reflexivity.
Qed.

Lemma sequence_app (chains1 chains2 : list (ChainData World)) : forall st w,
  sequence (chains1 ++ chains2) (success X) (fallback X) st w
  = sequence chains2 (success X) (fallback X)
      (fst (sequence chains1 (success X) (fallback X) st w))
      (snd (sequence chains1 (success X) (fallback X) st w)).
Proof.
  induction chains1 as [|c chains1 IH]; intros st w.
  - reflexivity.
  - rewrite <- app_comm_cons, !sequence_step. apply IH.
Qed.

Lemma sequence_frame (chains : list (ChainData World)) : forall st w,
  only_maps_differ st (fst (sequence chains (success X) (fallback X) st w)).
Proof.
  induction chains as [|c chains IH]; intros st w.
  - apply only_maps_differ_refl.
  - rewrite sequence_step.
    eapply only_maps_differ_trans; [|apply IH].
    destruct (is_fulfilled _); [apply success_frame | apply fallback_frame].
Qed.

(** A name that is not scheduled stays where it was. *)
Lemma sequence_untouched (chains : list (ChainData World)) : forall st w N,
  ~ In N (map (@data World) chains) ->
  JsMap.has N (available (fst (sequence chains (success X) (fallback X) st w)))
  = JsMap.has N (available st)
  /\ JsMap.has N (unavailable (fst (sequence chains (success X) (fallback X) st w)))
     = JsMap.has N (unavailable st).
Proof.
  induction chains as [|c chains IH]; intros st w N Hn.
  - split; reflexivity.
  - rewrite sequence_step. simpl in Hn.
    assert (Hne : N <> data c) by (intros ->; apply Hn; now left).
    assert (Hrest : ~ In N (map (@data World) chains)) by (intros H; apply Hn; now right).
    destruct (IH (if is_fulfilled (fst (function c (data c) w))
                  then success X (data c) st else fallback X (data c) st)
                 (snd (function c (data c) w)) N Hrest) as [Ha Hu].
    rewrite Ha, Hu. clear Ha Hu IH.
    destruct (is_fulfilled _).
    + unfold success. destruct (factory st); simpl; [|split; reflexivity].
      unfold available, unavailable; simpl. split; [now apply has_set_other | reflexivity].
    + unfold fallback. destruct (factory st); simpl; [|split; reflexivity].
      unfold available, unavailable; simpl. split; [reflexivity | now apply has_set_other].
Qed.

(** Where a scheduled name ends up: in [available] if its hook was fulfilled,
    in [unavailable] if it was rejected, and in one of them only. *)
Lemma sequence_buckets (chains : list (ChainData World)) : forall st w config N,
  factory st = Some config ->
  NoDup (map (@data World) chains) ->
  In N (map (@data World) chains) ->
  JsMap.has N (available st) = false ->
  JsMap.has N (unavailable st) = false ->
  JsMap.has N (available (fst (sequence chains (success X) (fallback X) st w)))
  = negb (JsMap.has N (unavailable (fst (sequence chains (success X) (fallback X) st w)))).
Proof.
  induction chains as [|c chains IH]; intros st w config N Hf Hnd Hin Ha Hu.
  - destruct Hin.
  - rewrite sequence_step. simpl in Hnd, Hin.
    inversion Hnd as [|? ? Hc Hrest]; subst.
    set (st1 := if is_fulfilled (fst (function c (data c) w))
                then success X (data c) st else fallback X (data c) st).
    assert (Hf1 : factory st1 = Some config).
    { subst st1. destruct (is_fulfilled _).
      - destruct (success_frame (data c) st) as (_ & -> & _). exact Hf.
      - destruct (fallback_frame (data c) st) as (_ & -> & _). exact Hf. }
    destruct (string_dec N (data c)) as [->|Hne].
    + destruct (sequence_untouched chains st1 (snd (function c (data c) w)) _ Hc) as [-> ->].
      subst st1. destruct (is_fulfilled _).
      * destruct (success_maps (data c) st config Hf) as [-> ->].
        now rewrite has_set_same, Hu.
      * destruct (fallback_maps (data c) st config Hf) as [-> ->].
        now rewrite has_set_same, Ha.
    + destruct Hin as [Heq|Hin]; [congruence|].
      apply (IH st1 _ config N Hf1 Hrest Hin).
      * subst st1. destruct (is_fulfilled _).
        -- destruct (success_maps (data c) st config Hf) as [-> _].
           now rewrite has_set_other.
        -- destruct (fallback_maps (data c) st config Hf) as [_ ->]. exact Ha.
      * subst st1. destruct (is_fulfilled _).
        -- destruct (success_maps (data c) st config Hf) as [_ ->]. exact Hu.
        -- destruct (fallback_maps (data c) st config Hf) as [-> _].
           now rewrite has_set_other.
Qed.

End Scheduler.

(** ** Merging and unifying the configuration *)

Section Configuration.

Variable World : Type.
Variable X : Collaborators World.

Implicit Types (st : Tools World) (w : World) (N toolName : string).
Implicit Types (tools t s : Dict (ToolEntry World)).

Lemma internalTools_keys : dict_keys (internalTools X) = builtin_names.
Proof. reflexivity. Qed.

Lemma dict_has_In {A : Type} k (o : Dict A) : dict_has k o = true <-> In k (dict_keys o).
Proof. apply existsb_eqb_In. Qed.

Lemma merge_object_keys_In s : forall t k,
  In k (dict_keys (merge_object t s)) <-> In k (dict_keys t) \/ In k (dict_keys s).
Proof.
  unfold merge_object, dict_keys.
  induction s as [|[k0 e0] s IH]; intros t k; simpl.
  - tauto.
  - rewrite IH. unfold dict_set. rewrite keys_set_entry_In. intuition congruence.
Qed.

Lemma merge_object_keys_NoDup s : forall t,
  NoDup (dict_keys t) -> NoDup (dict_keys (merge_object t s)).
Proof.
  unfold merge_object, dict_keys.
  induction s as [|[k0 e0] s IH]; intros t Hnd; simpl.
  - exact Hnd.
  - apply IH. unfold dict_set. now apply keys_set_entry_NoDup.
Qed.

(** Entries under new, pairwise different names are appended as they are. *)
Lemma merge_object_fresh s : forall t,
  NoDup (dict_keys (t ++ s)) -> merge_object t s = t ++ s.
Proof.
  unfold merge_object, dict_keys.
  induction s as [|[k0 e0] s IH]; intros t Hnd; simpl.
  - now rewrite app_nil_r.
  - assert (Hk0 : ~ In k0 (map fst t)).
    { rewrite map_app in Hnd. simpl in Hnd. apply NoDup_remove_2 in Hnd.
      intros Hin. apply Hnd. apply in_or_app. now left. }
    assert (Hget : dict_get k0 t = None) by now apply lookup_None_iff.
    rewrite Hget. unfold dict_set. rewrite set_entry_fresh by exact Hk0.
    assert (He : merge_entry None e0 = e0) by now destruct e0.
    rewrite He, IH.
    + now rewrite <- app_assoc.
    + now rewrite <- app_assoc.
Qed.

Lemma merged_tools_unfold user :
  merged_tools X user
  = match user with
    | Some o => merge_object (internalTools X) o
    | None => internalTools X
    end.
Proof. destruct user; reflexivity. Qed.

Lemma merged_tools_NoDup user : NoDup (dict_keys (merged_tools X user)).
Proof.
  assert (Hint : NoDup (dict_keys (internalTools X))).
  { apply nodupb_NoDup. reflexivity. }
  rewrite merged_tools_unfold. destruct user as [o|]; [|exact Hint].
  now apply merge_object_keys_NoDup.
Qed.

Lemma merged_tools_builtin user N :
  In N builtin_names -> In N (dict_keys (merged_tools X user)).
Proof.
  intros Hin. rewrite merged_tools_unfold. destruct user as [o|].
  - apply merge_object_keys_In. left. exact Hin.
  - exact Hin.
Qed.

Lemma prepareConfig_unified st tools :
  config_tools st = Some tools ->
  NoDup (dict_keys tools) ->
  prepareConfig st = map (fun kv => (fst kv, unified (snd kv))) tools.
Proof.
  intros Hc Hnd. unfold prepareConfig. rewrite Hc.
  change (map (fun kv => (fst kv, unified (snd kv))) tools)
    with ([] ++ map (fun kv : string * ToolEntry World => (fst kv, unified (snd kv))) tools).
  rewrite <- (fold_set_fresh (@unified World) tools []) by exact Hnd.
  generalize (@nil (string * ToolSettings World)).
  clear. induction tools as [|[k e] tools IH]; intros acc; simpl.
  - reflexivity.
  - rewrite <- IH. destruct e; reflexivity.
Qed.

Lemma unified_keys tools :
  dict_keys (map (fun kv : string * ToolEntry World => (fst kv, unified (snd kv))) tools)
  = dict_keys tools.
Proof. unfold dict_keys. rewrite map_map. reflexivity. Qed.

Lemma getListOfPrepareFunctions_names (config : Dict (ToolSettings World)) :
  forall l, getListOfPrepareFunctions config = inr l ->
  map (@data World) l = dict_keys config.
Proof.
  induction config as [|[k s] config IH]; simpl; intros l H.
  - injection H as <-. reflexivity.
  - destruct (class s); [|discriminate].
    destruct (getListOfPrepareFunctions config) as [e|l0]; [discriminate|].
    injection H as <-. simpl. f_equal. now apply IH.
Qed.

Lemma getListOfPrepareFunctions_app (c1 c2 : Dict (ToolSettings World)) l1 l2 :
  getListOfPrepareFunctions c1 = inr l1 ->
  getListOfPrepareFunctions c2 = inr l2 ->
  getListOfPrepareFunctions (c1 ++ c2) = inr (l1 ++ l2).
Proof.
  revert l1. induction c1 as [|[k s] c1 IH]; simpl; intros l1 H1 H2.
  - injection H1 as <-. exact H2.
  - destruct (class s); [|discriminate].
    destruct (getListOfPrepareFunctions c1) as [e|l0]; [discriminate|].
    injection H1 as <-. rewrite (IH l0 eq_refl H2). reflexivity.
Qed.

(** The state in which the scheduler starts. *)
Lemma prepare_resolved st w st' w' :
  prepare X st w = Resolved st' w' ->
  let st1 := set_config_tools (Some (merged_tools X (config_tools st))) st in
  let st2 := set_factory (Some (prepareConfig st1)) st1 in
  exists sequenceData,
    getListOfPrepareFunctions (prepareConfig st1) = inr sequenceData
    /\ sequence sequenceData (success X) (fallback X) st2 w = (st', w').
Proof.
  unfold prepare. fold (merged_tools X (config_tools st)).
  destruct (validateTools X st); [discriminate|].
  cbv zeta. simpl config_tools. cbv iota.
  destruct (Nat.eqb (List.length (dict_keys (merged_tools X (config_tools st)))) 0);
    [discriminate|].
  destruct (getListOfPrepareFunctions _) as [e|sequenceData]; [discriminate|].
  intros H. exists sequenceData. split; [reflexivity|].
  destruct sequenceData as [|c rest].
  - simpl in H. injection H as <- <-. reflexivity.
  - change (Nat.eqb (List.length (c :: rest)) 0) with false in H. cbv iota in H.
    destruct (sequence (c :: rest) _ _ _ w) as [st3 w3].
    injection H as <- <-. reflexivity.
Qed.

Lemma prepare_runs st w sequenceData :
  validateTools X st = None ->
  let st1 := set_config_tools (Some (merged_tools X (config_tools st))) st in
  let st2 := set_factory (Some (prepareConfig st1)) st1 in
  getListOfPrepareFunctions (prepareConfig st1) = inr sequenceData ->
  prepare X st w
  = Resolved (fst (sequence sequenceData (success X) (fallback X) st2 w))
             (snd (sequence sequenceData (success X) (fallback X) st2 w)).
Proof.
  intros Hv st1 st2 Hl. unfold prepare. fold (merged_tools X (config_tools st)).
  rewrite Hv. cbv zeta. simpl config_tools. cbv iota. fold st1. rewrite Hl.
  assert (Hne : Nat.eqb (List.length (dict_keys (merged_tools X (config_tools st)))) 0 = false).
  { apply Nat.eqb_neq. intros H0. apply length_zero_iff_nil in H0.
    assert (Hb : In "bold" (dict_keys (merged_tools X (config_tools st)))).
    { apply merged_tools_builtin. now left. }
    rewrite H0 in Hb. destruct Hb. }
  rewrite Hne. fold st2.
  destruct sequenceData as [|c rest]; [reflexivity|].
  change (Nat.eqb (List.length (c :: rest)) 0) with false. cbv iota.
  destruct (sequence (c :: rest) _ _ st2 w); reflexivity.
Qed.

End Configuration.

(** ** Preparation: where the tools end up *)

Section Preparation.

Variable World : Type.
Variable X : Collaborators World.

Implicit Types (st : Tools World) (w : World) (N toolName : string).

Lemma has_empty_entries N (m : JsMap.t (BaseTool World)) :
  JsMap.entries m = [] -> JsMap.has N m = false.
Proof. unfold JsMap.has, JsMap.get. now intros ->. Qed.

(** C1 (partition, invariant I1).  A registry whose two maps are still empty
    is prepared and the returned promise resolves.  Then [config.tools] is
    the merged configuration, and every name configured there is in exactly
    one of [available] and [unavailable]; a name that is not configured is in
    neither. *)
Theorem prepare_partition st w st' w' :
  JsMap.entries (toolsAvailable st) = [] ->
  JsMap.entries (toolsUnavailable st) = [] ->
  prepare X st w = Resolved st' w' ->
  config_tools st' = Some (merged_tools X (config_tools st))
  /\ forall N,
       (dict_has N (merged_tools X (config_tools st)) = true ->
        JsMap.has N (available st') = negb (JsMap.has N (unavailable st')))
       /\ (dict_has N (merged_tools X (config_tools st)) = false ->
           JsMap.has N (available st') = false /\ JsMap.has N (unavailable st') = false).
Proof.
  intros Ha Hu Hp.
  destruct (prepare_resolved World X st w st' w' Hp) as [sequenceData [Hl Hs]].
  set (merged := merged_tools X (config_tools st)) in *.
  set (st1 := set_config_tools (Some merged) st) in *.
  set (st2 := set_factory (Some (prepareConfig st1)) st1) in *.
  assert (Hnd : NoDup (dict_keys merged)) by apply merged_tools_NoDup.
  assert (Hnames : map (@data World) sequenceData = dict_keys merged).
  { rewrite (getListOfPrepareFunctions_names World _ _ Hl).
    rewrite (prepareConfig_unified World st1 merged eq_refl Hnd).
    apply unified_keys. }
  assert (Hst' : st' = fst (sequence sequenceData (success X) (fallback X) st2 w))
    by now rewrite Hs.
  split.
  - destruct (sequence_frame World X sequenceData st2 w) as (Hc & _).
    rewrite Hst', Hc. reflexivity.
  - intros N. split; intros HN.
    + rewrite Hst'.
      apply (sequence_buckets World X sequenceData st2 w (prepareConfig st1) N).
      * reflexivity.
      * now rewrite Hnames.
      * rewrite Hnames. now apply dict_has_In.
      * now apply has_empty_entries.
      * now apply has_empty_entries.
    + assert (Hout : ~ In N (map (@data World) sequenceData)).
      { rewrite Hnames. intros Hin. apply dict_has_In in Hin. congruence. }
      destruct (sequence_untouched World X sequenceData st2 w N Hout) as [H1 H2].
      rewrite Hst', H1, H2.
      split; now apply has_empty_entries.
Qed.

Lemma sequence_world (chains : list (ChainData World)) : forall st1 st2 w,
  snd (sequence chains (success X) (fallback X) st1 w)
  = snd (sequence chains (success X) (fallback X) st2 w).
Proof.
  induction chains as [|c chains IH]; intros st1 st2 w.
  - reflexivity.
  - rewrite !sequence_step. apply IH.
Qed.

Lemma plugin_class_valid (e : ToolEntry World) (P : ToolConstructable World) :
  plugin_class e = Some P -> valid_entry e = true.
Proof.
  destruct e as [c|s| |]; simpl; intros H; try reflexivity; try discriminate.
  unfold valid_entry; simpl. destruct (class s) as [[c|]|]; try discriminate.
  reflexivity.
Qed.

Lemma plugin_class_passes (e : ToolEntry World) (P : ToolConstructable World) :
  plugin_class e = Some P ->
  negb (isFunction_entry e) && negb (isFunction_class (entry_class e)) = false.
Proof.
  intros H. apply plugin_class_valid in H. unfold valid_entry in H.
  destruct (isFunction_entry e), (isFunction_class (entry_class e));
    simpl in *; congruence.
Qed.

(** Entries that all bring a plugin class pass the validation, whatever
    their names. *)
Lemma validate_loop_plugins (tools : Dict (ToolEntry World)) :
  (forall N e, In (N, e) tools -> exists P, plugin_class e = Some P) ->
  validate_loop X tools = None.
Proof.
  induction tools as [|[k e] tools IH]; intros Hall; [reflexivity|].
  cbn [validate_loop]. destruct (js_in k (internalTools X)); [reflexivity|].
  destruct (Hall k e (or_introl eq_refl)) as [P HP].
  rewrite (plugin_class_passes e P HP).
  assert (Hn : is_nullish e = false) by (destruct e; [reflexivity..|discriminate]).
  rewrite Hn. apply IH. intros N e' Hin. apply (Hall N e'). now right.
Qed.

Lemma plugin_class_unified (e : ToolEntry World) (P : ToolConstructable World) :
  plugin_class e = Some P -> class (unified e) = Some (ClassFunction P).
Proof.
  destruct e as [c|s| |]; simpl; intros H; try discriminate.
  - now injection H as ->.
  - destruct (class s) as [[c|]|]; try discriminate. now injection H as ->.
Qed.

(** The scheduler on three entries with different names that are in neither
    map yet, when the hook of the first is fulfilled and the hook of the
    second is rejected. *)
Lemma sequence_three (ca cb cc : ChainData World) st w config :
  factory st = Some config ->
  NoDup [data ca; data cb; data cc] ->
  (forall N, In N [data ca; data cb; data cc] ->
             JsMap.has N (available st) = false /\ JsMap.has N (unavailable st) = false) ->
  fst (function ca (data ca) w) = Fulfilled ->
  (forall w0, fst (function cb (data cb) w0) = Rejected) ->
  let w2 := snd (function ca (data ca) w) in
  let w3 := snd (function cb (data cb) w2) in
  let st' := fst (sequence [ca; cb; cc] (success X) (fallback X) st w) in
  snd (sequence [ca; cb; cc] (success X) (fallback X) st w) = snd (function cc (data cc) w3)
  /\ JsMap.has (data ca) (available st') = true
  /\ JsMap.has (data ca) (unavailable st') = false
  /\ JsMap.has (data cb) (unavailable st') = true
  /\ JsMap.has (data cb) (available st') = false
  /\ JsMap.has (data cc) (available st') = is_fulfilled (fst (function cc (data cc) w3))
  /\ JsMap.has (data cc) (unavailable st')
     = negb (is_fulfilled (fst (function cc (data cc) w3))).
Proof.
  intros Hf Hnd Hfresh HA HB w2 w3 st'.
  inversion Hnd as [|? ? Hab Hnd1]; subst. inversion Hnd1 as [|? ? Hbc _]; subst.
  assert (Hab' : data ca <> data cb) by (intros E; apply Hab; left; now rewrite E).
  assert (Hac' : data ca <> data cc) by (intros E; apply Hab; right; left; now rewrite E).
  assert (Hbc' : data cb <> data cc) by (intros E; apply Hbc; left; now rewrite E).
  destruct (Hfresh (data ca) (or_introl eq_refl)) as [Haa Hau].
  destruct (Hfresh (data cb) (or_intror (or_introl eq_refl))) as [Hba Hbu].
  destruct (Hfresh (data cc) (or_intror (or_intror (or_introl eq_refl)))) as [Hca Hcu].
  subst st'. rewrite !sequence_step. fold w2.
  rewrite HA, (HB w2). fold w3. simpl is_fulfilled. cbv iota.
  set (sa := success X (data ca) st).
  set (sb := fallback X (data cb) sa).
  destruct (success_maps World X (data ca) st config Hf) as [Ea1 Ea2]. fold sa in Ea1, Ea2.
  assert (Hfa : factory sa = Some config).
  { destruct (success_frame World X (data ca) st) as (_ & Hk & _). fold sa in Hk. congruence. }
  destruct (fallback_maps World X (data cb) sa config Hfa) as [Eb1 Eb2]. fold sb in Eb1, Eb2.
  assert (Hfb : factory sb = Some config).
  { destruct (fallback_frame World X (data cb) sa) as (_ & Hk & _). fold sb in Hk. congruence. }
  simpl sequence.
  destruct (success_maps World X (data cc) sb config Hfb) as [Ec1 Ec2].
  destruct (fallback_maps World X (data cc) sb config Hfb) as [Ed1 Ed2].
  destruct (is_fulfilled (fst (function cc (data cc) w3))); simpl fst; simpl snd.
  - rewrite Ec1, Ec2, Eb1, Eb2, Ea1, Ea2. has_after_set.
    repeat split; assumption.
  - rewrite Ed1, Ed2, Eb1, Eb2, Ea1, Ea2. has_after_set.
    repeat split; assumption.
Qed.

Lemma builtin_chains :
  getListOfPrepareFunctions
    (map (fun kv => (fst kv, unified (snd kv))) (internalTools X))
  = inr (builtin_sequence X).
Proof. reflexivity. Qed.

(** C2 (sequencing, containment).  The user configures three tools [a], [b],
    [c], in this order, under names that differ from each other and from the
    built-in ones, each entry bringing a plugin class.  The [prepare] hook of
    [a]'s class is fulfilled and the one of [b]'s class throws or rejects.
    Then [prepare] resolves all the same.  The hooks ran one after the other:
    with [w1] the world that preparing the built-ins alone leaves, [a]'s hook
    ran in [w1], [b]'s in the world [a]'s left, [c]'s in the world [b]'s
    left, and the final world is the one [c]'s hook left.  [a] is in
    [available] only, [b] in [unavailable] only, and [c] in [available] or in
    [unavailable] according to how its own hook settled. *)
Theorem prepare_contains_failure
    (a b c : string) (ea eb ec : ToolEntry World)
    (A B C : ToolConstructable World) w :
  plugin_class ea = Some A ->
  plugin_class eb = Some B ->
  plugin_class ec = Some C ->
  NoDup (builtin_names ++ [a; b; c]) ->
  settles Fulfilled A a ->
  settles Rejected B b ->
  exists st' stb w1,
    prepare X (new_Tools None) w = Resolved stb w1
    /\ let w2 := snd (prepare_hook A a w1) in
       let w3 := snd (prepare_hook B b w2) in
       prepare X (new_Tools (Some [(a, ea); (b, eb); (c, ec)])) w
       = Resolved st' (snd (prepare_hook C c w3))
       /\ JsMap.has a (available st') = true
       /\ JsMap.has a (unavailable st') = false
       /\ JsMap.has b (unavailable st') = true
       /\ JsMap.has b (available st') = false
       /\ JsMap.has c (available st') = is_fulfilled (fst (prepare_hook C c w3))
       /\ JsMap.has c (unavailable st') = negb (is_fulfilled (fst (prepare_hook C c w3))).
Proof.
  intros HA HB HC Hnd HsA HsB.
  set (user := [(a, ea); (b, eb); (c, ec)]).
  set (st := new_Tools (Some user)).
  assert (Hout : forall N, In N [a; b; c] -> ~ In N builtin_names).
  { intros N HN. now apply (NoDup_app_disjoint builtin_names [a; b; c]). }
  assert (Hnot : forall N, In N [a; b; c] -> dict_has N (internalTools X) = false).
  { intros N HN. apply existsb_eqb_not_In. now apply Hout. }
  (* validation lets the three entries through *)
  assert (Hv : validateTools X st = None).
  { unfold validateTools. cbn [config_tools st new_Tools].
    apply validate_loop_plugins. intros N e Hin.
    destruct Hin as [[= <- <-]|[[= <- <-]|[[= <- <-]|[]]]]; eexists; eassumption. }
  (* the merged configuration is the built-ins followed by the three entries *)
  assert (Hm : merged_tools X (config_tools st) = internalTools X ++ user).
  { rewrite merged_tools_unfold. simpl config_tools.
    apply merge_object_fresh. unfold dict_keys. rewrite map_app. exact Hnd. }
  set (st1 := set_config_tools (Some (merged_tools X (config_tools st))) st).
  assert (Hcfg : prepareConfig st1
                 = map (fun kv => (fst kv, unified (snd kv))) (internalTools X)
                   ++ map (fun kv => (fst kv, unified (snd kv))) user).
  { rewrite (prepareConfig_unified World st1 (internalTools X ++ user)).
    - apply map_app.
    - change (Some (merged_tools X (config_tools st)) = Some (internalTools X ++ user)).
      now rewrite Hm.
    - unfold dict_keys. rewrite map_app. exact Hnd. }
  set (ca := {| function := prepare_hook A; data := a |}).
  set (cb := {| function := prepare_hook B; data := b |}).
  set (cc := {| function := prepare_hook C; data := c |}).
  assert (Hul : getListOfPrepareFunctions (map (fun kv => (fst kv, unified (snd kv))) user)
                = inr [ca; cb; cc]).
  { simpl. now rewrite (plugin_class_unified ea A HA), (plugin_class_unified eb B HB),
      (plugin_class_unified ec C HC). }
  pose proof (getListOfPrepareFunctions_app World _ _ _ _ builtin_chains Hul) as Hl.
  rewrite <- Hcfg in Hl.
  pose proof (prepare_runs World X st w _ Hv Hl) as Hp. fold st1 in Hp.
  set (st2 := set_factory (Some (prepareConfig st1)) st1) in Hp.
  rewrite sequence_app in Hp.
  match type of Hp with
  | context [sequence ?l _ _ st2 w] =>
      match l with
      | [_; _; _] => fail 1
      | _ => set (bl := l) in Hp
      end
  end.
  set (stb := fst (sequence bl (success X) (fallback X) st2 w)) in Hp.
  set (w1 := snd (sequence bl (success X) (fallback X) st2 w)) in Hp.
  (* the built-ins left the three names alone *)
  assert (Hfb : factory stb = Some (prepareConfig st1)).
  { destruct (sequence_frame World X bl st2 w) as (_ & Hk & _). fold stb in Hk.
    rewrite Hk. reflexivity. }
  assert (Hfresh : forall N, In N [data ca; data cb; data cc] ->
             JsMap.has N (available stb) = false /\ JsMap.has N (unavailable stb) = false).
  { intros N HN.
    destruct (sequence_untouched World X bl st2 w N (Hout N HN)) as [H1 H2].
    fold stb in H1, H2. rewrite H1, H2. split; reflexivity. }
  assert (Hnd3 : NoDup [data ca; data cb; data cc]).
  { now apply NoDup_app_remove_l in Hnd. }
  destruct (sequence_three ca cb cc stb w1 (prepareConfig st1) Hfb Hnd3 Hfresh
              (HsA w1) HsB) as (Hw & Ha1 & Ha2 & Hb1 & Hb2 & Hc1 & Hc2).
  exists (fst (sequence [ca; cb; cc] (success X) (fallback X) stb w1)).
  eexists. exists w1. split.
  - rewrite (prepare_runs World X (new_Tools None) w _ eq_refl builtin_chains).
    f_equal. apply sequence_world.
  - cbv zeta. rewrite Hp, Hw. repeat split; assumption.
Qed.

(** C4 (built-in preservation).  With no user tools ([config.tools] missing
    or an empty object) and built-in classes whose [prepare] hooks, if any,
    do not fail, [prepare] resolves, [available] holds the five built-in
    names and nothing else, [unavailable] is empty, and every entry of the
    configuration handed to the factory is flagged internal; with a factory
    that keeps the flag, so is every tool in [available]. *)
Theorem prepare_builtins_only (user : option (Dict (ToolEntry World))) w :
  user = None \/ user = Some [] ->
  builtin_hooks_succeed X ->
  factory_keeps_isInternal X ->
  exists st' w',
    prepare X (new_Tools user) w = Resolved st' w'
    /\ JsMap.keys (available st') = builtin_names
    /\ JsMap.keys (unavailable st') = []
    /\ (forall N, In N builtin_names ->
          exists s, option_map (dict_get N) (factory st') = Some (Some s)
                    /\ isInternal s = Some true)
    /\ (forall N tool, JsMap.get N (available st') = Some tool ->
          tool_isInternal tool = true).
Proof.
  intros Huser (Hbold & Hitalic & Hlink & Hparagraph & Hstub) Hfactory.
  assert (Hp : forall st, st = new_Tools user ->
            prepare X st w
            = Resolved
                (fst (sequence (builtin_sequence X) (success X) (fallback X)
                        (set_factory (Some (prepareConfig
                           (set_config_tools (Some (merged_tools X (config_tools st))) st)))
                           (set_config_tools (Some (merged_tools X (config_tools st))) st)) w))
                (snd (sequence (builtin_sequence X) (success X) (fallback X)
                        (set_factory (Some (prepareConfig
                           (set_config_tools (Some (merged_tools X (config_tools st))) st)))
                           (set_config_tools (Some (merged_tools X (config_tools st))) st)) w))).
  { intros st ->. apply prepare_runs.
    - destruct Huser as [->| ->]; reflexivity.
    - destruct Huser as [->| ->]; apply builtin_chains. }
  do 2 eexists. split; [apply Hp; reflexivity|]. clear Hp.
  set (config := map (fun kv => (fst kv, unified (snd kv))) (internalTools X)).
  assert (Hst2 : set_factory (Some (prepareConfig
                   (set_config_tools
                      (Some (merged_tools X (config_tools (new_Tools user)))) (new_Tools user))))
                   (set_config_tools
                      (Some (merged_tools X (config_tools (new_Tools user)))) (new_Tools user))
                 = set_factory (Some config)
                     (set_config_tools (Some (internalTools X)) (new_Tools user))).
  { destruct Huser as [->| ->]; reflexivity. }
  rewrite Hst2. clear Hst2. unfold builtin_sequence.
  rewrite sequence_step; cbn [function data]; rewrite (Hbold w); cbn [is_fulfilled].
  rewrite sequence_step; cbn [function data]; rewrite (Hitalic _); cbn [is_fulfilled].
  rewrite sequence_step; cbn [function data]; rewrite (Hlink _); cbn [is_fulfilled].
  rewrite sequence_step; cbn [function data]; rewrite (Hparagraph _); cbn [is_fulfilled].
  rewrite sequence_step; cbn [function data]; rewrite (Hstub _); cbn [is_fulfilled].
  cbn [sequence fst].
  split; [reflexivity|]. split; [reflexivity|]. split.
  - intros N HN. simpl in HN.
    destruct HN as [<-|[<-|[<-|[<-|[<-|[]]]]]]; eexists; split; reflexivity.
  - intros N tool. unfold JsMap.get. cbn.
    repeat match goal with
           | |- context [String.eqb N ?k] => destruct (String.eqb N k)
           end;
      intros [= <-] || discriminate;
      match goal with
      | |- tool_isInternal (factory_get X ?cfg ?k) = true =>
          rewrite (Hfactory cfg k _ eq_refl); reflexivity
      end.
Qed.

Lemma validate_loop_throws (tools : Dict (ToolEntry World)) e :
  validate_loop X tools = Some e ->
  e = TypeError \/ exists toolName, e = ConfigError toolName.
Proof.
  induction tools as [|[k t] tools IH]; cbn [validate_loop]; [discriminate|].
  destruct (js_in k (internalTools X)); [discriminate|].
  destruct (is_nullish t); [intros [= <-]; now left|].
  destruct (negb (isFunction_entry t) && negb (isFunction_class (entry_class t))).
  - intros [= <-]. right. now exists k.
  - exact IH.
Qed.

Lemma getListOfPrepareFunctions_throws (config : Dict (ToolSettings World)) e :
  getListOfPrepareFunctions config = inl e -> e = TypeError.
Proof.
  induction config as [|[k s] config IH]; simpl; [discriminate|].
  destruct (class s); [|now intros [= <-]].
  destruct (getListOfPrepareFunctions config); [|discriminate].
  intros [= <-]. now apply IH.
Qed.

(** With the merge as the spec describes it, the five built-in names are
    keys of the merged configuration whatever the user configured, so the
    merged configuration is never empty and [prepare] never throws
    [Can't start without tools]. *)
Theorem prepare_never_without_tools st :
  (forall N, In N builtin_names ->
             dict_has N (merged_tools X (config_tools st)) = true)
  /\ dict_keys (merged_tools X (config_tools st)) <> []
  /\ forall w st', prepare X st w <> Threw CantStartWithoutTools st'.
Proof.
  assert (Hin : forall N, In N builtin_names ->
                          dict_has N (merged_tools X (config_tools st)) = true).
  { intros N HN. apply dict_has_In. now apply merged_tools_builtin. }
  assert (Hne : dict_keys (merged_tools X (config_tools st)) <> []).
  { intros H0. specialize (Hin "bold" (or_introl eq_refl)).
    apply dict_has_In in Hin. rewrite H0 in Hin. destruct Hin. }
  split; [exact Hin|]. split; [exact Hne|].
  intros w st'. unfold prepare. fold (merged_tools X (config_tools st)).
  destruct (validateTools X st) as [e|] eqn:Hv.
  - unfold validateTools in Hv. destruct (config_tools st) as [tools|]; [|discriminate].
    destruct (validate_loop_throws tools e Hv) as [->|[k ->]]; discriminate.
  - cbv zeta. simpl config_tools. cbv iota.
    destruct (Nat.eqb_spec (List.length (dict_keys (merged_tools X (config_tools st)))) 0)
      as [H0|_].
    + apply length_zero_iff_nil in H0. contradiction.
    + destruct (getListOfPrepareFunctions _) as [e|sequenceData] eqn:Hl.
      * apply getListOfPrepareFunctions_throws in Hl. subst e. discriminate.
      * destruct (Nat.eqb _ 0); [discriminate|].
        destruct (sequence _ _ _ _ w); discriminate.
Qed.

End Preparation.

(** ** The cached views *)

Section Views.

Variable World : Type.
Variable X : Collaborators World.

Implicit Types (st : Tools World) (w : World) (N toolName : string).
Implicit Types (tool : BaseTool World).

Lemma nth_error_snoc {A : Type} (l : list A) (a : A) :
  nth_error (l ++ [a]) (List.length l) = Some a.
Proof.
  rewrite nth_error_app2 by lia. now rewrite Nat.sub_diag.
Qed.

Lemma ToolType_eqb_eq (a b : ToolType) : ToolType_eqb a b = true <-> a = b.
Proof. destruct a, b; cbv; split; intros H; try reflexivity; discriminate H. Qed.

(** The verdict of the filter of the [inline] getter. *)
Lemma inline_filter_true toolName tool :
  fst (inline_filter (toolName, tool)) = true
  <-> type tool = Inline
      /\ implements tool "render" = true
      /\ implements tool "surround" = true
      /\ implements tool "checkState" = true.
Proof.
  unfold inline_filter, notImplementedMethods, inlineToolRequiredMethods.
  cbn [snd filter].
  destruct (ToolType_eqb (type tool) Inline) eqn:Et; cbn [negb].
  - apply ToolType_eqb_eq in Et.
    destruct (implements tool "render"), (implements tool "surround"),
      (implements tool "checkState"); cbn; intuition congruence.
  - assert (type tool <> Inline).
    { intros E. apply ToolType_eqb_eq in E. congruence. }
    cbn. intuition congruence.
Qed.



(** C8 (idempotent views).  Whatever the state, the reference that a read
    of [inline] (of [block]) returns is the one the getter's cache field
    holds after the read: the cached one if there was one, and otherwise a
    new [Map] that holds the filtered entries of [available].  A second read
    returns the same reference and leaves the module as the first read left
    it: no new [Map], nothing logged. *)
Theorem views_memoized st :
  (_inlineTools (snd (inline st)) = Some (fst (inline st))
   /\ inline (snd (inline st)) = (fst (inline st), snd (inline st))
   /\ (forall cached, _inlineTools st = Some cached -> inline st = (cached, st))
   /\ (_inlineTools st = None ->
       fst (inline st) = List.length (heap st)
       /\ deref (fst (inline st)) (snd (inline st))
          = Some (JsMap.from (filter (fun e => fst (inline_filter e))
                                (JsMap.entries (available st))))))
  /\ (_blockTools (snd (block st)) = Some (fst (block st))
      /\ block (snd (block st)) = (fst (block st), snd (block st))
      /\ (forall cached, _blockTools st = Some cached -> block st = (cached, st))
      /\ (_blockTools st = None ->
          fst (block st) = List.length (heap st)
          /\ deref (fst (block st)) (snd (block st))
             = Some (JsMap.from
                       (filter (fun e : string * BaseTool World =>
                                  ToolType_eqb (type (snd e)) Block)
                          (JsMap.entries (available st)))))).
Proof.
  split.
  - unfold inline. destruct (_inlineTools st) as [c|] eqn:E; cbn [fst snd _inlineTools].
    + rewrite E. repeat split; try reflexivity; try discriminate.
      now intros cached [= ->].
    + repeat split; try reflexivity; try discriminate.
      unfold deref. cbn [heap]. apply nth_error_snoc.
  - unfold block. destruct (_blockTools st) as [c|] eqn:E; cbn [fst snd _blockTools].
    + rewrite E. repeat split; try reflexivity; try discriminate.
      now intros cached [= ->].
    + repeat split; try reflexivity; try discriminate.
      unfold deref. cbn [heap]. apply nth_error_snoc.
Qed.

(** C9, as the code has it.  [getInternal] keeps no cache: every call
    filters the current [available] again and returns a new [Map].  Two
    calls in a row with the same argument return two different references
    to maps with the same entries, and the caches of [inline] and [block]
    are not touched. *)
Theorem getInternal_allocates (ty : option ToolType) st :
  let r1 := fst (getInternal ty st) in
  let st1 := snd (getInternal ty st) in
  let r2 := fst (getInternal ty st1) in
  let st2 := snd (getInternal ty st1) in
  r2 = S r1
  /\ deref r1 st2 = Some (JsMap.from (internal_entries ty st))
  /\ deref r2 st2 = Some (JsMap.from (internal_entries ty st))
  /\ available st2 = available st
  /\ _inlineTools st2 = _inlineTools st
  /\ _blockTools st2 = _blockTools st.
Proof.
  unfold getInternal, alloc, deref. cbn.
  repeat split.
  - rewrite length_app. simpl. lia.
  - rewrite nth_error_app1 by (rewrite length_app; simpl; lia).
    apply nth_error_snoc.
  - unfold internal_entries at 2. cbn [available toolsAvailable].
    fold (available st). fold (internal_entries ty st).
    apply nth_error_snoc.
Qed.

(** [prepare] writes to the two registry maps, to [config.tools] and to the
    factory, and to nothing else. *)
Lemma prepare_keeps_views st w st' w' :
  prepare X st w = Resolved st' w' ->
  _inlineTools st' = _inlineTools st /\ _blockTools st' = _blockTools st
  /\ heap st' = heap st /\ console st' = console st.
Proof.
  intros Hp. destruct (prepare_resolved World X st w st' w' Hp) as [l [_ Hs]].
  match type of Hs with
  | sequence l _ _ ?s w = _ =>
      destruct (sequence_frame World X l s w) as (_ & _ & Hi & Hb & Hh & Hc)
  end.
  rewrite Hs in Hi, Hb, Hh, Hc. cbn [fst] in *.
  repeat split; assumption.
Qed.

(** C10.  On a registry whose [available] is still empty and whose view
    cache is empty, reading [inline] (or [block]) stores a reference to an
    empty [Map].  When [prepare] has then run and filled the registry, the
    getter still answers with that reference, the module is left untouched
    by the read, and the [Map] behind the reference is still empty. *)
Theorem early_view_stays_empty st w :
  JsMap.entries (toolsAvailable st) = [] ->
  (_inlineTools st = None ->
   forall st' w', prepare X (snd (inline st)) w = Resolved st' w' ->
     inline st' = (fst (inline st), st')
     /\ deref (fst (inline st)) st' = Some JsMap.empty)
  /\ (_blockTools st = None ->
      forall st' w', prepare X (snd (block st)) w = Resolved st' w' ->
        block st' = (fst (block st), st')
        /\ deref (fst (block st)) st' = Some JsMap.empty).
Proof.
  intros Hempty. split; intros Hcache st' w' Hp;
    destruct (prepare_keeps_views _ w st' w' Hp) as (Hi & Hb & Hh & _).
  - unfold inline in *. rewrite Hcache in *. cbn [fst snd] in *.
    cbn [_inlineTools heap] in Hi, Hh. rewrite Hi. split; [reflexivity|].
    unfold deref. rewrite Hh. unfold available. rewrite Hempty. apply nth_error_snoc.
  - unfold block in *. rewrite Hcache in *. cbn [fst snd] in *.
    cbn [_blockTools heap] in Hb, Hh. rewrite Hb. split; [reflexivity|].
    unfold deref. rewrite Hh. unfold available. rewrite Hempty. apply nth_error_snoc.
Qed.

End Views.

(** ** Validation and teardown *)

Section Validation.

Variable World : Type.
Variable X : Collaborators World.

Implicit Types (st : Tools World) (w : World) (N toolName : string).
Implicit Types (tool : ToolEntry World) (pre post : Dict (ToolEntry World)).

Lemma internal_name_iff toolName :
  dict_has toolName (internalTools X) = true <-> In toolName builtin_names.
Proof. rewrite dict_has_In. reflexivity. Qed.

Lemma valid_entry_not_nullish tool : valid_entry tool = true -> is_nullish tool = false.
Proof. destruct tool; [reflexivity..|discriminate]. Qed.

Lemma validate_loop_prefix pre : forall post,
  forallb (fun kv => negb (js_in (fst kv) (internalTools X)) && valid_entry (snd kv)) pre
  = true ->
  validate_loop X (pre ++ post) = validate_loop X post.
Proof.
  induction pre as [|[k t] pre IH]; intros post Hpre.
  - reflexivity.
  - cbn [forallb fst snd] in Hpre.
    apply andb_true_iff in Hpre. destruct Hpre as [Hkt Hpre].
    apply andb_true_iff in Hkt. destruct Hkt as [Hk Ht].
    apply negb_true_iff in Hk.
    rewrite <- app_comm_cons. cbn [validate_loop].
    rewrite Hk, (valid_entry_not_nullish t Ht). unfold valid_entry in Ht.
    destruct (isFunction_entry t), (isFunction_class (entry_class t));
      simpl in Ht |- *; try discriminate; now apply IH.
Qed.

Lemma js_in_ordinary {A : Type} N (o : Dict A) :
  inherited_name N = false -> js_in N o = dict_has N o.
Proof. intros H. unfold js_in. rewrite H. apply orb_false_r. Qed.

(** Over names that no object inherits, [in] is the test for an own key. *)
Lemma passes_ordinary pre :
  forallb (fun kv => negb (dict_has (fst kv) (internalTools X)) && valid_entry (snd kv)) pre
  = true ->
  forallb (fun N => negb (inherited_name N)) (map fst pre) = true ->
  forallb (fun kv => negb (js_in (fst kv) (internalTools X)) && valid_entry (snd kv)) pre
  = true.
Proof.
  induction pre as [|[k t] pre IH]; intros Hpre Hord; [reflexivity|].
  cbn [forallb map fst snd] in *.
  apply andb_true_iff in Hpre. destruct Hpre as [Hkt Hpre].
  apply andb_true_iff in Hord. destruct Hord as [Hk Hord].
  apply negb_true_iff in Hk.
  rewrite (js_in_ordinary k _ Hk), Hkt. now apply IH.
Qed.

(** C5 (validation), as the code has it for names that are not inherited
    from [Object.prototype] and values that are not [null] or [undefined].
    The entries of [config.tools] are looked at in enumeration order.  After
    entries that are neither built-in names nor badly shaped, the next entry
    decides: under a built-in name the validation returns at once, whatever
    the entries after it; under another name with a value that is neither a
    constructor nor an object with a constructor in [class], it throws the
    configuration error that names the tool; otherwise it goes on with the
    entries after it.  Entries that all pass make the validation return
    normally. *)
Theorem validateTools_first_decides pre toolName tool post st :
  forallb (fun kv => negb (dict_has (fst kv) (internalTools X)) && valid_entry (snd kv)) pre
  = true ->
  forallb (fun N => negb (inherited_name N)) (map fst pre ++ [toolName]) = true ->
  is_nullish tool = false ->
  validateTools X (set_config_tools (Some pre) st) = None
  /\ validateTools X (set_config_tools (Some (pre ++ (toolName, tool) :: post)) st)
     = if dict_has toolName (internalTools X) then None
       else if valid_entry tool then validateTools X (set_config_tools (Some post) st)
       else Some (ConfigError toolName).
Proof.
  intros Hpre Hord Hnull. rewrite forallb_app in Hord.
  apply andb_true_iff in Hord. destruct Hord as [Hord Hname].
  cbn [forallb] in Hname. rewrite andb_true_r in Hname. apply negb_true_iff in Hname.
  pose proof (passes_ordinary pre Hpre Hord) as Hpass.
  unfold validateTools. cbn [config_tools set_config_tools]. split.
  - rewrite <- (app_nil_r pre). now rewrite validate_loop_prefix.
  - rewrite validate_loop_prefix by exact Hpass. cbn [validate_loop].
    rewrite (js_in_ordinary toolName _ Hname), Hnull.
    destruct (dict_has toolName (internalTools X)); [reflexivity|].
    unfold valid_entry.
    destruct (isFunction_entry tool), (isFunction_class (entry_class tool)); reflexivity.
Qed.

(** [Object.values] of a [Map] that has no own properties is empty, so the
    loop of [destroy] has nothing to go through. *)
Lemma destroy_without_own_properties st w :
  JsMap.own_props (toolsAvailable st) = [] -> destroy st w = w.
Proof.
  intros H. unfold destroy, JsMap.Object_values, available. now rewrite H.
Qed.

Lemma sequence_own_props (chains : list (ChainData World)) : forall st w,
  JsMap.own_props (toolsAvailable (fst (sequence chains (success X) (fallback X) st w)))
  = JsMap.own_props (toolsAvailable st).
Proof.
  induction chains as [|c chains IH]; intros st w.
  - reflexivity.
  - rewrite sequence_step, IH.
    destruct (is_fulfilled _).
    + unfold success. destruct (factory st); reflexivity.
    + unfold fallback. destruct (factory st); reflexivity.
Qed.

(** X13 ([destroy]).  After [new Tools] and a [prepare] that resolved,
    whatever the configuration, [destroy] leaves the world as it finds it:
    [Object.values] of the [Map] in [available] is empty, so the loop calls
    no [reset]. *)
Lemma destroy_after_prepare user w st' w' :
  prepare X (new_Tools user) w = Resolved st' w' ->
  forall w0, destroy st' w0 = w0.
Proof.
  intros Hp w0. apply destroy_without_own_properties.
  destruct (prepare_resolved World X _ w st' w' Hp) as [l [_ Hs]].
  match type of Hs with
  | sequence l _ _ ?s w = _ => pose proof (sequence_own_props l s w) as Ho
  end.
  rewrite Hs in Ho. exact Ho.
Qed.

End Validation.

(** ** The properties at work on the concrete plugins *)

Module Checks.

Import Demo.

(** The model at work: the two fatal configuration errors of [prepare], the
    warning of the [inline] getter, and [getInternal] with the enum member
    whose value is [0]. *)
Example prepare_rejects_bad_shape :
  prepare X (new_Tools (Some [("counter", Primitive)])) []
  = Threw (ConfigError "counter") (new_Tools (Some [("counter", Primitive)])).
Proof. vm_compute. reflexivity. Qed.

Example prepare_class_missing_after_builtin :
  exists st,
    prepare X
      (new_Tools (Some [("bold", Constructable Header);
                        ("counter", Settings {| class := None; isInternal := None;
                                                inlineToolbar := None |})])) []
    = Threw TypeError st.
Proof. eexists. vm_compute. reflexivity. Qed.

Example inline_warns_about_broken_marker :
  console (snd (inline two_markers)) = [IncorrectInlineTool "brokenMarker" ["checkState"]]
  /\ option_map JsMap.keys (deref (fst (inline two_markers)) (snd (inline two_markers)))
     = Some ["marker"].
Proof. split; vm_compute; reflexivity. Qed.

Example getInternal_Block_is_not_filtered :
  map fst (internal_entries (Some Block) (after_prepare None)) = builtin_names
  /\ map fst (internal_entries (Some Inline) (after_prepare None)) = ["bold"; "italic"; "link"].
Proof. split; vm_compute; reflexivity. Qed.

(** The factory of the concrete plugins keeps the [isInternal] flag. *)
Lemma ToolsFactory_keeps_isInternal : factory_keeps_isInternal X.
Proof.
  intros config toolName s Hget. cbn [factory_get X].
  unfold ToolsFactory_get. rewrite Hget.
  destruct s as [[[c|]|] flag toolbar]; reflexivity.
Qed.

(** C1 on the three user tools: eight names configured, seven end up in
    [available], [image] in [unavailable]. *)
Lemma prepare_partition_witness :
  let st := new_Tools (Some three_tools) in
  let st' := after_prepare (Some three_tools) in
  prepare X st [] = Resolved st' ["prepare header"; "prepare image"; "prepare list"]
  /\ config_tools st' = Some (merged_tools X (config_tools st))
  /\ forall N,
       (dict_has N (merged_tools X (config_tools st)) = true ->
        JsMap.has N (available st') = negb (JsMap.has N (unavailable st')))
       /\ (dict_has N (merged_tools X (config_tools st)) = false ->
           JsMap.has N (available st') = false /\ JsMap.has N (unavailable st') = false).
Proof.
  cbv zeta. split; [vm_compute; reflexivity|].
  apply (prepare_partition World X (new_Tools (Some three_tools)) []
           (after_prepare (Some three_tools))
           ["prepare header"; "prepare image"; "prepare list"]).
  - reflexivity.
  - reflexivity.
  - vm_compute. reflexivity.
Defined.

(** C2 on [header], [image], [list]: the hook of [image] fails. *)
Lemma prepare_contains_failure_witness :
  exists st' stb w1,
    prepare X (new_Tools None) [] = Resolved stb w1
    /\ prepare X (new_Tools (Some three_tools)) []
       = Resolved st'
           (snd (prepare_hook List_ "list"
              (snd (prepare_hook Image "image" (snd (prepare_hook Header "header" w1))))))
    /\ JsMap.has "header" (available st') = true
    /\ JsMap.has "header" (unavailable st') = false
    /\ JsMap.has "image" (unavailable st') = true
    /\ JsMap.has "image" (available st') = false
    /\ JsMap.has "list" (available st')
       = is_fulfilled (fst (prepare_hook List_ "list"
           (snd (prepare_hook Image "image" (snd (prepare_hook Header "header" w1))))))
    /\ JsMap.has "list" (unavailable st')
       = negb (is_fulfilled (fst (prepare_hook List_ "list"
           (snd (prepare_hook Image "image" (snd (prepare_hook Header "header" w1))))))).
Proof.
  apply (prepare_contains_failure World X "header" "image" "list"
           (Constructable Header)
           (Settings {| class := Some (ClassFunction Image); isInternal := None;
                        inlineToolbar := Some true |})
           (Constructable List_) Header Image List_ []).
  - reflexivity.
  - reflexivity.
  - reflexivity.
  - apply nodupb_NoDup. reflexivity.
  - intros w. reflexivity.
  - intros w. reflexivity.
Defined.


(** C4 on the concrete built-ins, [config.tools] left out. *)
Lemma prepare_builtins_only_witness :
  exists st' w',
    prepare X (new_Tools None) [] = Resolved st' w'
    /\ JsMap.keys (available st') = builtin_names
    /\ JsMap.keys (unavailable st') = []
    /\ (forall N, In N builtin_names ->
          exists s, option_map (dict_get N) (factory st') = Some (Some s)
                    /\ isInternal s = Some true)
    /\ (forall N tool, JsMap.get N (available st') = Some tool ->
          tool_isInternal tool = true).
Proof.
  apply (prepare_builtins_only World X None []).
  - left. reflexivity.
  - repeat split; intros w; reflexivity.
  - exact ToolsFactory_keeps_isInternal.
Defined.

(** C5: after the valid [header], the built-in name [paragraph] ends the
    validation; the badly shaped [counter] behind it is never looked at. *)
Lemma validateTools_first_decides_witness :
  validateTools X (set_config_tools (Some [("header", Constructable Header)]) (new_Tools None))
  = None
  /\ validateTools X
       (set_config_tools
          (Some ([("header", Constructable Header)]
                 ++ ("paragraph", Primitive) :: [("counter", Primitive)]))
          (new_Tools None))
     = None.
Proof.
  exact (validateTools_first_decides World X
           [("header", Constructable Header)] "paragraph" Primitive
           [("counter", Primitive)] (new_Tools None) eq_refl eq_refl eq_refl).
Defined.

(** C10: [inline] read before [prepare]; afterwards seven tools are
    available and the view is the same empty [Map]. *)
Lemma early_view_stays_empty_witness :
  let st := new_Tools (Some three_tools) in
  exists st' w',
    prepare X (snd (inline st)) [] = Resolved st' w'
    /\ JsMap.keys (available st')
       = ["bold"; "italic"; "link"; "paragraph"; "stub"; "header"; "list"]
    /\ inline st' = (fst (inline st), st')
    /\ deref (fst (inline st)) st' = Some JsMap.empty.
Proof.
  cbv zeta.
  exists (after_early_read (Some three_tools)).
  exists ["prepare header"; "prepare image"; "prepare list"].
  assert (Hp : prepare X (snd (inline (new_Tools (Some three_tools)))) []
               = Resolved (after_early_read (Some three_tools))
                   ["prepare header"; "prepare image"; "prepare list"]).
  { vm_compute. reflexivity. }
  split; [exact Hp|]. split; [vm_compute; reflexivity|].
  exact (proj1 (early_view_stays_empty World X (new_Tools (Some three_tools)) [] eq_refl)
           eq_refl _ _ Hp).
Defined.

(** A user configuration that supplies nothing, and one that puts a
    primitive in the place of every built-in: with the merge as the spec
    describes it [prepare] does not throw, the promise resolves, and the
    factory has been asked for five tools. *)
Lemma cleared_configuration_is_prepared :
  (exists st',
      prepare X (new_Tools (Some [])) [] = Resolved st' []
      /\ JsMap.keys (available st') = builtin_names)
  /\ (exists st',
         prepare X (new_Tools (Some cleared)) [] = Resolved st' []
         /\ dict_keys (merged_tools X (Some cleared)) = builtin_names
         /\ JsMap.keys (available st') = builtin_names).
Proof.
  split.
  - exists (after_prepare (Some [])). split; vm_compute; reflexivity.
  - exists (after_prepare (Some cleared)). repeat split; vm_compute; reflexivity.
Qed.

(** C9, the claim refuted.  On the prepared registry two calls of
    [getInternal(ToolType.Inline)] return two different references. *)
Lemma getInternal_twice_two_maps :
  let st := after_prepare None in
  let first := getInternal (Some Inline) st in
  let second := getInternal (Some Inline) (snd first) in
  fst first = 0 /\ fst second = 1
  /\ option_map JsMap.keys (deref (fst first) (snd second)) = Some ["bold"; "italic"; "link"]
  /\ option_map JsMap.keys (deref (fst second) (snd second)) = Some ["bold"; "italic"; "link"].
Proof.
  cbv zeta. repeat split; vm_compute; reflexivity.
Qed.

(** C7, the code at a failing input.  The registry is prepared with one user
    tool, [note], whose class has a [reset] that writes a line.  The tool is
    in [available] with that [reset], and [destroy] leaves the world without
    the line: no [reset] was called. *)
Theorem destroy_resets_nothing :
  let st := after_prepare (Some note_config) in
  (exists tool hook,
      JsMap.get "note" (available st) = Some tool
      /\ reset tool = Some hook
      /\ snd (hook []) = ["reset"])
  /\ JsMap.Object_values (available st) = []
  /\ destroy st [] = [].
Proof.
  cbv zeta. split; [|split; vm_compute; reflexivity].
  exists (ToolsFactory_get (prepareConfig (set_config_tools
            (Some (merged_tools X (Some note_config))) (new_Tools None))) "note").
  exists (fun w => (Fulfilled, w ++ ["reset"])).
  repeat split; vm_compute; reflexivity.
Qed.

End Checks.

(** ** More on the views: [block], [getInternal], [defaultTool], the console *)

Section MoreViews.

Variable World : Type.

Implicit Types (st : Tools World) (N toolName : string) (tool : BaseTool World).

Lemma lookup_filter {V : Type} (p : string * V -> bool) k (l : list (string * V)) :
  NoDup (map fst l) ->
  JsMap.lookup k (filter p l)
  = match JsMap.lookup k l with
    | Some v => if p (k, v) then Some v else None
    | None => None
    end.
Proof.
  induction l as [|[k' v] l IH]; intros Hnd; [reflexivity|].
  inversion Hnd as [|? ? Hk' Hl]; subst. cbn [filter JsMap.lookup].
  destruct (String.eqb_spec k k') as [->|Hne].
  - destruct (p (k', v)) eqn:Ep; cbn [JsMap.lookup].
    + now rewrite String.eqb_refl.
    + apply lookup_None_iff. intros Hin. apply Hk'.
      apply in_map_iff in Hin. destruct Hin as [[k0 v0] [Hk0 Hin]].
      apply filter_In in Hin. destruct Hin as [Hin _].
      simpl in Hk0; subst k0. apply (in_map fst) in Hin. exact Hin.
  - destruct (p (k', v)); cbn [JsMap.lookup].
    + destruct (String.eqb_spec k k'); [contradiction | now apply IH].
    + now apply IH.
Qed.

(** Reading a [Map] made of the filtered entries of another one. *)
Lemma get_from_filter (p : string * BaseTool World -> bool) (m : JsMap.t (BaseTool World)) N :
  JsMap.ok m = true ->
  JsMap.get N (JsMap.from (filter p (JsMap.entries m)))
  = match JsMap.get N m with
    | Some tool => if p (N, tool) then Some tool else None
    | None => None
    end.
Proof.
  intros Hok. apply nodupb_NoDup in Hok. unfold JsMap.keys in Hok.
  unfold JsMap.get. rewrite from_NoDup by now apply filter_keys_NoDup.
  now apply lookup_filter.
Qed.

Lemma get_from_filter_iff (p : string * BaseTool World -> bool) (m : JsMap.t (BaseTool World))
    N tool :
  JsMap.ok m = true ->
  (JsMap.get N (JsMap.from (filter p (JsMap.entries m))) = Some tool
   <-> JsMap.get N m = Some tool /\ p (N, tool) = true).
Proof.
  intros Hok. rewrite get_from_filter by exact Hok.
  destruct (JsMap.get N m) as [t|].
  - destruct (p (N, t)) eqn:Ep; split.
    + intros [= ->]. now split.
    + now intros [[= ->] _].
    + discriminate.
    + intros [[= ->] Hp]. congruence.
  - split; [discriminate | now intros [? _]].
Qed.

Lemma has_get {V : Type} k (m : JsMap.t V) :
  JsMap.has k m = true <-> exists v, JsMap.get k m = Some v.
Proof.
  unfold JsMap.has. destruct (JsMap.get k m) as [v|]; split.
  - intros _. now exists v.
  - reflexivity.
  - discriminate.
  - intros [v Hv]. discriminate.
Qed.

Lemma filter_twice {A : Type} (p q : A -> bool) (l : list A) :
  filter q (filter p l) = filter (fun x => p x && q x) l.
Proof.
  induction l as [|x l IH]; [reflexivity|]. cbn [filter].
  destruct (p x); cbn [filter andb]; [destruct (q x)|]; now rewrite IH.
Qed.

(** X1 ([block] getter).  When the [block] getter computes its view
    (nothing cached yet), the registry is left as it was and the view maps a
    name to a tool exactly if [available] maps the name to that tool and the
    tool's type is [Block]. *)
Theorem block_view_correct st :
  _blockTools st = None ->
  JsMap.ok (available st) = true ->
  exists view,
    deref (fst (block st)) (snd (block st)) = Some view
    /\ available (snd (block st)) = available st
    /\ unavailable (snd (block st)) = unavailable st
    /\ forall N tool,
         JsMap.get N view = Some tool
         <-> JsMap.get N (available st) = Some tool /\ type tool = Block.
Proof.
  intros Hcache Hok. unfold block. rewrite Hcache. cbn [fst snd].
  eexists. split; [|split; [|split]].
  - unfold deref. cbn [heap]. apply nth_error_snoc.
  - reflexivity.
  - reflexivity.
  - intros N tool. rewrite get_from_filter_iff by exact Hok.
    cbn [snd]. now rewrite ToolType_eqb_eq.
Qed.

(** X2 ([inline] and [block] getters).  Read one after the other on a
    registry with nothing cached, the two getters return two different [Map]
    objects without a common name; a tool of type [Tune] is in neither. *)
Theorem views_disjoint st :
  _inlineTools st = None ->
  _blockTools st = None ->
  JsMap.ok (available st) = true ->
  exists vi vb,
    deref (fst (inline st)) (snd (block (snd (inline st)))) = Some vi
    /\ deref (fst (block (snd (inline st)))) (snd (block (snd (inline st)))) = Some vb
    /\ fst (block (snd (inline st))) = S (fst (inline st))
    /\ (forall N, JsMap.has N vi = true -> JsMap.has N vb = false)
    /\ (forall N tool, JsMap.get N (available st) = Some tool -> type tool = Tune ->
          JsMap.has N vi = false /\ JsMap.has N vb = false).
Proof.
  intros Hi Hb Hok. unfold inline. rewrite Hi. cbn [fst snd].
  unfold block. cbn [_blockTools]. rewrite Hb. cbn [fst snd heap available toolsAvailable].
  fold (available st).
  set (vi := JsMap.from (filter (fun e => fst (inline_filter e)) (JsMap.entries (available st)))).
  set (vb := JsMap.from
               (filter (fun e : string * BaseTool World => ToolType_eqb (type (snd e)) Block)
                  (JsMap.entries (available st)))).
  assert (Hvi : forall N tool, JsMap.get N vi = Some tool ->
                  JsMap.get N (available st) = Some tool /\ type tool = Inline).
  { intros N tool H. apply get_from_filter_iff in H; [|exact Hok].
    destruct H as [Hget Hp]. split; [exact Hget|].
    now apply inline_filter_true in Hp. }
  assert (Hvb : forall N tool, JsMap.get N vb = Some tool ->
                  JsMap.get N (available st) = Some tool /\ type tool = Block).
  { intros N tool H. apply get_from_filter_iff in H; [|exact Hok].
    destruct H as [Hget Hp]. split; [exact Hget|].
    cbn [snd] in Hp. now apply ToolType_eqb_eq in Hp. }
  exists vi, vb. split; [|split; [|split; [|split]]].
  - unfold deref. cbn [heap].
    rewrite nth_error_app1 by (rewrite length_app; simpl; lia).
    apply nth_error_snoc.
  - unfold deref. cbn [heap]. apply nth_error_snoc.
  - rewrite length_app. simpl. lia.
  - intros N Hin. apply has_get in Hin. destruct Hin as [t Ht].
    destruct (JsMap.has N vb) eqn:E; [|reflexivity].
    apply has_get in E. destruct E as [t' Ht'].
    destruct (Hvi N t Ht) as [Ha Hty], (Hvb N t' Ht') as [Ha' Hty'].
    rewrite Ha in Ha'. injection Ha' as <-. congruence.
  - intros N tool Hget Hty. split.
    + destruct (JsMap.has N vi) eqn:E; [|reflexivity].
      apply has_get in E. destruct E as [t Ht]. destruct (Hvi N t Ht) as [Ha Hty'].
      rewrite Hget in Ha. injection Ha as <-. congruence.
    + destruct (JsMap.has N vb) eqn:E; [|reflexivity].
      apply has_get in E. destruct E as [t Ht]. destruct (Hvb N t Ht) as [Ha Hty'].
      rewrite Hget in Ha. injection Ha as <-. congruence.
Qed.


(** X4 ([getInternal]).  The [Map] that [getInternal(type)] returns maps a
    name to a tool exactly if [available] does, the tool is flagged
    internal, and the type filter lets it through.  The filter is skipped
    when no type is given and also when the type is [Block], whose enum
    value [0] is falsy in [if (type)]; only [Inline] and [Tune] are
    compared with the tool's type. *)
Theorem getInternal_membership (ty : option ToolType) st :
  JsMap.ok (available st) = true ->
  exists view,
    deref (fst (getInternal ty st)) (snd (getInternal ty st)) = Some view
    /\ forall N tool,
         JsMap.get N view = Some tool
         <-> JsMap.get N (available st) = Some tool
             /\ tool_isInternal tool = true
             /\ (ty = None \/ ty = Some Block \/ ty = Some (type tool)).
Proof.
  intros Hok. unfold getInternal, alloc. cbn [fst snd].
  eexists. split; [unfold deref; cbn [heap]; apply nth_error_snoc|].
  intros N tool. unfold internal_entries.
  destruct ty as [[| |]|]; cbn [ToolType_value Nat.eqb];
    rewrite ?filter_twice, get_from_filter_iff by exact Hok; cbn [snd];
    rewrite ?andb_true_iff, ?ToolType_eqb_eq.
  - intuition.
  - split.
    + intros (Hg & Hi & Ht). repeat split; auto. right. right. now rewrite Ht.
    + intros (Hg & Hi & [H|[H|H]]); try discriminate.
      injection H as H. repeat split; auto.
  - split.
    + intros (Hg & Hi & Ht). repeat split; auto. right. right. now rewrite Ht.
    + intros (Hg & Hi & [H|[H|H]]); try discriminate.
      injection H as H. repeat split; auto.
  - intuition.
Qed.

(** X5 ([defaultTool]).  On a registry with no cached block view,
    [defaultTool] computes and caches the block view as the [block] getter
    does, and returns a tool exactly if [config.defaultBlock] is set to a
    name under which [available] holds that tool and the tool's type is
    [Block]; in every other case (no default block set, unknown name, a tool
    that is no block tool) it returns nothing, without throwing. *)
Theorem defaultTool_lookup (defaultBlock : option string) st :
  _blockTools st = None ->
  JsMap.ok (available st) = true ->
  snd (defaultTool defaultBlock st) = snd (block st)
  /\ _blockTools (snd (defaultTool defaultBlock st)) = Some (List.length (heap st))
  /\ forall tool,
       fst (defaultTool defaultBlock st) = Some tool
       <-> exists N, defaultBlock = Some N
                     /\ JsMap.get N (available st) = Some tool
                     /\ type tool = Block.
Proof.
  intros Hcache Hok. unfold defaultTool, block. rewrite Hcache. cbn [fst snd].
  split; [reflexivity|]. split; [reflexivity|].
  intros tool. unfold deref. cbn [heap]. rewrite nth_error_snoc.
  destruct defaultBlock as [N|].
  - rewrite get_from_filter_iff by exact Hok. cbn [snd]. rewrite ToolType_eqb_eq.
    split.
    + intros [Hg Ht]. now exists N.
    + intros (N' & [= <-] & Hg & Ht). now split.
  - split; [discriminate | intros (N' & H & _); discriminate].
Qed.

End MoreViews.

(** ** More on the configuration and on [prepare] *)

Section MorePreparation.

Variable World : Type.
Variable X : Collaborators World.

Implicit Types (st : Tools World) (w : World) (N toolName : string).
Implicit Types (tool : BaseTool World) (config : Dict (ToolSettings World)).

(** X6 ([defaultTool] read before [prepare]).  If [defaultTool] is read
    while [available] is still empty, the block view it caches is the empty
    [Map]; after [prepare] has resolved, [defaultTool] still looks the name up
    in that empty [Map] and returns nothing, whatever the default block, and
    changes nothing. *)
Theorem defaultTool_early_read (d : option string) st w st' w' :
  JsMap.entries (toolsAvailable st) = [] ->
  _blockTools st = None ->
  prepare X (snd (defaultTool d st)) w = Resolved st' w' ->
  forall d', defaultTool d' st' = (None, st').
Proof.
  intros Hempty Hcache Hp d'.
  destruct (prepare_keeps_views World X _ w st' w' Hp) as (_ & Hb & Hh & _).
  unfold defaultTool, block in Hb, Hh. rewrite Hcache in Hb, Hh.
  cbn [snd _blockTools heap] in Hb, Hh.
  unfold defaultTool, block. rewrite Hb. unfold deref. rewrite Hh.
  rewrite nth_error_snoc. unfold available. rewrite Hempty.
  destruct d'; reflexivity.
Qed.

(** X7 ([prepareConfig]).  For a [config.tools] object (one entry per
    name), the unified configuration has the same names in the same order;
    a settings object is passed through as it is, any other value [v]
    becomes the settings [{ class: v }]. *)
Theorem prepareConfig_entries st (tools : Dict (ToolEntry World)) :
  config_tools st = Some tools ->
  NoDup (dict_keys tools) ->
  dict_keys (prepareConfig st) = dict_keys tools
  /\ forall N e,
       In (N, e) tools ->
       dict_get N (prepareConfig st)
       = Some match e with
              | Settings s => s
              | Constructable c =>
                  {| class := Some (ClassFunction c); isInternal := None;
                     inlineToolbar := None |}
              | Primitive =>
                  {| class := Some ClassPrimitive; isInternal := None;
                     inlineToolbar := None |}
              | Nullish =>
                  {| class := None; isInternal := None; inlineToolbar := None |}
              end.
Proof.
  intros Hc Hnd. rewrite (prepareConfig_unified World st tools Hc Hnd). split.
  - apply unified_keys.
  - intros N e Hin. unfold dict_get. apply In_lookup_Some.
    + fold (dict_keys (map (fun kv : string * ToolEntry World =>
                              (fst kv, unified (snd kv))) tools)).
      now rewrite unified_keys.
    + apply in_map_iff. exists (N, e). split; [|exact Hin].
      destruct e; reflexivity.
Qed.

Lemma getListOfPrepareFunctions_inl config :
  (exists e, getListOfPrepareFunctions config = inl e)
  <-> exists N s, In (N, s) config /\ class s = None.
Proof.
  induction config as [|[k s] config IH]; cbn [getListOfPrepareFunctions].
  - split; [intros [e He]; discriminate | intros (N & s & [] & _)].
  - destruct (class s) as [cls|] eqn:Ec.
    + destruct (getListOfPrepareFunctions config) as [e|l].
      * split; [intros _ | intros _; now exists e].
        destruct (proj1 IH (ex_intro _ e eq_refl)) as (N & s' & Hin & Hs').
        exists N, s'. split; [now right | exact Hs'].
      * split; [intros [e He]; discriminate|].
        intros (N & s' & [Heq|Hin] & Hs').
        -- injection Heq as <- <-. congruence.
        -- destruct (proj2 IH (ex_intro _ N (ex_intro _ s' (conj Hin Hs')))) as [e He].
           discriminate.
    + split; [intros _ | intros _; now exists TypeError].
      exists k, s. split; [now left | exact Ec].
Qed.

(** X8 ([getListOfPrepareFunctions]).  Either every entry of the unified
    configuration has a [class], and the list has one element per entry, in
    the same order, carrying the entry's name and the [prepare] of its class
    (the no-op when the class has none); or some entry has no [class], and
    the function throws a [TypeError]. *)
Theorem getListOfPrepareFunctions_cases config :
  match getListOfPrepareFunctions config with
  | inr toolPreparationList =>
      Forall2
        (fun (c : ChainData World) (kv : string * ToolSettings World) =>
           data c = fst kv
           /\ exists cls, class (snd kv) = Some cls /\ function c = prepare_of cls)
        toolPreparationList config
  | inl e => e = TypeError /\ exists N s, In (N, s) config /\ class s = None
  end.
Proof.
  induction config as [|[k s] config IH]; cbn [getListOfPrepareFunctions].
  - constructor.
  - destruct (class s) as [cls|] eqn:Ec.
    + destruct (getListOfPrepareFunctions config) as [e|l].
      * destruct IH as [-> (N & s' & Hin & Hs')]. split; [reflexivity|].
        exists N, s'. split; [now right | exact Hs'].
      * constructor; [|exact IH]. split; [reflexivity|].
        exists cls. split; [exact Ec | reflexivity].
    + split; [reflexivity|]. exists k, s. split; [now left | exact Ec].
Qed.

Lemma unified_class_None (e : ToolEntry World) :
  class (unified e) = None
  <-> e = Nullish \/ exists s, e = Settings s /\ class s = None.
Proof.
  destruct e as [c|s| |]; cbn; split.
  - discriminate.
  - intros [H|(s & H & _)]; discriminate.
  - intros H. right. now exists s.
  - intros [H|(s' & [= <-] & H)]; [discriminate | exact H].
  - discriminate.
  - intros [H|(s & H & _)]; discriminate.
  - intros _. now left.
  - reflexivity.
Qed.

(** X9 ([prepare], the fatal errors).  When [prepare] throws, the two
    registry maps, the cached views and the console are as they were.  It
    throws the configuration error for a tool exactly when [validateTools]
    does, and then nothing at all has changed; it throws a [TypeError]
    exactly when [validateTools] throws one, or the validation passes and
    some entry of the merged configuration is [null], [undefined] or an
    object without [class]. *)
Theorem prepare_throws st w :
  (forall e st', prepare X st w = Threw e st' ->
     toolsAvailable st' = toolsAvailable st /\ toolsUnavailable st' = toolsUnavailable st
     /\ _inlineTools st' = _inlineTools st /\ _blockTools st' = _blockTools st
     /\ heap st' = heap st /\ console st' = console st)
  /\ (forall n st', prepare X st w = Threw (ConfigError n) st'
                    <-> validateTools X st = Some (ConfigError n) /\ st' = st)
  /\ ((exists st', prepare X st w = Threw TypeError st')
      <-> validateTools X st = Some TypeError
          \/ (validateTools X st = None
              /\ exists N e, In (N, e) (merged_tools X (config_tools st))
                             /\ (e = Nullish \/ exists s, e = Settings s /\ class s = None))).
Proof.
  assert (Hne : Nat.eqb (List.length (dict_keys (merged_tools X (config_tools st)))) 0
                 = false).
  { apply Nat.eqb_neq. intros H0. apply length_zero_iff_nil in H0.
    assert (Hb : In "bold" (dict_keys (merged_tools X (config_tools st))))
      by (apply merged_tools_builtin; now left).
    rewrite H0 in Hb. destruct Hb. }
  assert (Hprep : prepare X st w
                  = match validateTools X st with
                    | Some e => Threw e st
                    | None =>
                        let st1 :=
                          set_config_tools (Some (merged_tools X (config_tools st))) st in
                        let st2 := set_factory (Some (prepareConfig st1)) st1 in
                        match getListOfPrepareFunctions (prepareConfig st1) with
                        | inl e => Threw e st2
                        | inr l =>
                            Resolved (fst (sequence l (success X) (fallback X) st2 w))
                                     (snd (sequence l (success X) (fallback X) st2 w))
                        end
                    end).
  { unfold prepare. fold (merged_tools X (config_tools st)).
    destruct (validateTools X st); [reflexivity|].
    cbv zeta. simpl config_tools. cbv iota. rewrite Hne.
    destruct (getListOfPrepareFunctions _) as [e|l]; [reflexivity|].
    destruct l as [|c l]; [reflexivity|].
    change (Nat.eqb (List.length (c :: l)) 0) with false. cbv iota.
    destruct (sequence (c :: l) _ _ _ w); reflexivity. }
  cbv zeta in Hprep.
  set (merged := merged_tools X (config_tools st)) in *.
  set (st1 := set_config_tools (Some merged) st) in *.
  set (st2 := set_factory (Some (prepareConfig st1)) st1) in *.
  assert (Hcfg : prepareConfig st1 = map (fun kv => (fst kv, unified (snd kv))) merged).
  { apply prepareConfig_unified; [reflexivity | apply merged_tools_NoDup]. }
  assert (Hty : (exists e, getListOfPrepareFunctions (prepareConfig st1) = inl e)
                <-> exists N e, In (N, e) merged
                                /\ (e = Nullish \/ exists s, e = Settings s /\ class s = None)).
  { rewrite getListOfPrepareFunctions_inl, Hcfg. split.
    - intros (N & s & Hin & Hs). apply in_map_iff in Hin.
      destruct Hin as [[k e] [Heq Hin]]. cbn [fst snd] in Heq. injection Heq as -> <-.
      apply unified_class_None in Hs. now exists N, e.
    - intros (N & e & Hin & He). exists N, (unified e). split.
      + apply in_map_iff. now exists (N, e).
      + now apply unified_class_None. }
  rewrite Hprep. clear Hprep. split; [|split].
  - intros e st'. destruct (validateTools X st).
    + intros [= _ <-]. repeat split.
    + destruct (getListOfPrepareFunctions (prepareConfig st1)); [|discriminate].
      intros [= _ <-]. repeat split.
  - intros n st'. destruct (validateTools X st) as [e|] eqn:Hv.
    + split.
      * intros [= -> <-]. now split.
      * intros [[= ->] ->]. reflexivity.
    + split; [|intros [H _]; discriminate].
      destruct (getListOfPrepareFunctions (prepareConfig st1)) as [e|l] eqn:Hl;
        [|discriminate].
      apply getListOfPrepareFunctions_throws in Hl. subst e. discriminate.
  - destruct (validateTools X st) as [e|] eqn:Hv.
    + split.
      * intros [st' H]. injection H as -> _. now left.
      * intros [[= ->]|[H _]]; [now exists st | discriminate].
    + rewrite <- Hty. split.
      * intros [st' H]. right. split; [reflexivity|].
        destruct (getListOfPrepareFunctions (prepareConfig st1)) as [e|l]; [|discriminate].
        now exists e.
      * intros [H|[_ [e He]]]; [discriminate|]. rewrite He.
        pose proof (getListOfPrepareFunctions_throws World _ _ He) as ->.
        now exists st2.
Qed.

(** X10 ([validateTools]).  The validation throws exactly when the entries
    of [config.tools], in enumeration order, reach an offending entry under
    a name that [in] does not find in the built-in table (neither one of the
    five built-in names nor a name inherited from [Object.prototype]), the
    entries before it being well shaped and under such names too.  If the
    offending entry is [null] or [undefined] the error is a [TypeError];
    if it is another value that is neither a constructor nor an object with
    a constructor in [class], it is the configuration error naming the
    entry. *)
Theorem validateTools_throws_iff st (e : Thrown) :
  validateTools X st = Some e
  <-> exists pre n entry post,
        config_tools st = Some (pre ++ (n, entry) :: post)
        /\ forallb (fun kv => negb (js_in (fst kv) (internalTools X))
                              && valid_entry (snd kv)) pre = true
        /\ js_in n (internalTools X) = false
        /\ ((is_nullish entry = true /\ e = TypeError)
            \/ (is_nullish entry = false /\ valid_entry entry = false
                /\ e = ConfigError n)).
Proof.
  unfold validateTools. split.
  - destruct (config_tools st) as [tools|]; [|discriminate].
    induction tools as [|[k t] tools IH]; cbn [validate_loop]; [discriminate|].
    destruct (js_in k (internalTools X)) eqn:Hk; [discriminate|].
    destruct (is_nullish t) eqn:Hn.
    { intros [= <-]. exists [], k, t, tools. repeat split; try assumption. now left. }
    destruct (negb (isFunction_entry t) && negb (isFunction_class (entry_class t))) eqn:Hv.
    + intros [= <-]. exists [], k, t, tools. repeat split; try assumption.
      right. repeat split; try assumption. unfold valid_entry.
      destruct (isFunction_entry t), (isFunction_class (entry_class t));
        simpl in Hv |- *; congruence.
    + intros H. destruct (IH H) as (pre & n & entry & post & Heq & Hpre & Hnn & Hent).
      injection Heq as ->.
      exists ((k, t) :: pre), n, entry, post. repeat split; try assumption.
      cbn [forallb fst snd]. rewrite Hk, Hpre. unfold valid_entry.
      destruct (isFunction_entry t), (isFunction_class (entry_class t));
        simpl in Hv |- *; congruence.
  - intros (pre & n & entry & post & -> & Hpre & Hn & Hent).
    rewrite (validate_loop_prefix World X pre _ Hpre). cbn [validate_loop].
    rewrite Hn. destruct Hent as [[Hnull ->]|(Hnull & Hval & ->)]; rewrite Hnull.
    + reflexivity.
    + unfold valid_entry in Hval.
      destruct (isFunction_entry entry), (isFunction_class (entry_class entry));
        simpl in Hval |- *; congruence.
Qed.

End MorePreparation.

(** ** The callbacks, one call after the other *)

Section Callbacks.

Variable World : Type.
Variable X : Collaborators World.

Implicit Types (st : Tools World) (w : World) (N toolName : string).
Implicit Types (tool : BaseTool World) (config : Dict (ToolSettings World)).
Implicit Types (calls : list (bool * string)).

Lemma get_set_same {V : Type} k (v : V) (m : JsMap.t V) :
  JsMap.get k (JsMap.set k v m) = Some v.
Proof. apply lookup_set_entry_same. Qed.

Lemma get_set_other {V : Type} k k' (v : V) (m : JsMap.t V) :
  k' <> k -> JsMap.get k' (JsMap.set k v m) = JsMap.get k' m.
Proof. apply lookup_set_entry_other. Qed.

(** Has [success] (flag [true]) or [fallback] (flag [false]) been called for
    the name? *)
Lemma called_In (flag : bool) N calls :
  existsb (fun c => Bool.eqb (fst c) flag && String.eqb (snd c) N) calls = true
  <-> In (flag, N) calls.
Proof.
  rewrite existsb_exists. split.
  - intros [[b k] [Hin Hc]]. cbn [fst snd] in Hc.
    apply andb_true_iff in Hc. destruct Hc as [Hb Hk].
    apply Bool.eqb_prop in Hb. apply String.eqb_eq in Hk. now subst.
  - intros Hin. exists (flag, N). split; [exact Hin|]. cbn [fst snd].
    now rewrite Bool.eqb_reflx, String.eqb_refl.
Qed.

Lemma replay_factory calls : forall st, factory (replay X calls st) = factory st.
Proof.
  unfold replay. induction calls as [|[b k] calls IH]; intros st; [reflexivity|].
  cbn [fold_left fst snd]. rewrite IH. destruct b.
  - now destruct (success_frame World X k st) as (_ & H & _).
  - now destruct (fallback_frame World X k st) as (_ & H & _).
Qed.

Lemma replay_get calls : forall st config N,
  factory st = Some config ->
  JsMap.get N (available (replay X calls st))
  = (if existsb (fun c => Bool.eqb (fst c) true && String.eqb (snd c) N) calls
     then Some (factory_get X config N) else JsMap.get N (available st))
  /\ JsMap.get N (unavailable (replay X calls st))
     = (if existsb (fun c => Bool.eqb (fst c) false && String.eqb (snd c) N) calls
        then Some (factory_get X config N) else JsMap.get N (unavailable st)).
Proof.
  unfold replay. induction calls as [|[b k] calls IH]; intros st config N Hf.
  - split; reflexivity.
  - cbn [fold_left existsb fst snd].
    set (st1 := if b then success X k st else fallback X k st).
    assert (Hf1 : factory st1 = Some config).
    { subst st1. destruct b.
      - destruct (success_frame World X k st) as (_ & -> & _). exact Hf.
      - destruct (fallback_frame World X k st) as (_ & -> & _). exact Hf. }
    destruct (IH st1 config N Hf1) as [Ha Hu]. rewrite Ha, Hu. clear Ha Hu IH.
    subst st1. destruct b; cbn [Bool.eqb andb orb].
    + destruct (success_maps World X k st config Hf) as [-> ->].
      split; [|reflexivity].
      destruct (existsb _ calls); [now rewrite orb_true_r|]. rewrite orb_false_r.
      destruct (String.eqb_spec k N) as [->|Hne].
      * apply get_set_same.
      * apply get_set_other. congruence.
    + destruct (fallback_maps World X k st config Hf) as [-> ->].
      split; [reflexivity|].
      destruct (existsb _ calls); [now rewrite orb_true_r|]. rewrite orb_false_r.
      destruct (String.eqb_spec k N) as [->|Hne].
      * apply get_set_same.
      * apply get_set_other. congruence.
Qed.

Lemma replay_ok calls : forall st,
  JsMap.ok (available st) = true -> JsMap.ok (unavailable st) = true ->
  JsMap.ok (available (replay X calls st)) = true
  /\ JsMap.ok (unavailable (replay X calls st)) = true.
Proof.
  unfold replay. induction calls as [|[b k] calls IH]; intros st Ha Hu.
  - now split.
  - cbn [fold_left fst snd]. apply IH; destruct b.
    + unfold success. destruct (factory st); [|exact Ha].
      apply nodupb_NoDup. apply keys_set_entry_NoDup. now apply nodupb_NoDup.
    + unfold fallback. destruct (factory st); exact Ha.
    + unfold success. destruct (factory st); exact Hu.
    + unfold fallback. destruct (factory st); [|exact Hu].
      apply nodupb_NoDup. apply keys_set_entry_NoDup. now apply nodupb_NoDup.
Qed.

(** What the scheduler does to the module is a series of callback calls, one
    per entry and in the order of the entries. *)
Lemma sequence_replay (chains : list (ChainData World)) : forall st w,
  exists calls,
    fst (sequence chains (success X) (fallback X) st w) = replay X calls st
    /\ map snd calls = map (@data World) chains.
Proof.
  induction chains as [|c chains IH]; intros st w.
  - exists []. split; reflexivity.
  - rewrite sequence_step.
    destruct (IH (if is_fulfilled (fst (function c (data c) w))
                  then success X (data c) st else fallback X (data c) st)
                 (snd (function c (data c) w))) as (calls & Heq & Hnames).
    exists ((is_fulfilled (fst (function c (data c) w)), data c) :: calls).
    split; [|cbn [map snd]; now rewrite Hnames].
    rewrite Heq. reflexivity.
Qed.

(** X11 ([success], [fallback]).  After any series of calls of the two
    callbacks on a module whose factory is set: a name reported to [success]
    is in [available] with the tool the factory gives for it, a name never
    reported to [success] is in [available] as before the calls; the same
    for [fallback] and [unavailable].  So the callbacks only add or
    overwrite, neither ever removes a name from the other map, and a name
    reported both ways is in both maps. *)
Theorem callbacks_only_add calls st config N :
  factory st = Some config ->
  (In (true, N) calls ->
     JsMap.get N (available (replay X calls st)) = Some (factory_get X config N))
  /\ (~ In (true, N) calls ->
        JsMap.get N (available (replay X calls st)) = JsMap.get N (available st))
  /\ (In (false, N) calls ->
        JsMap.get N (unavailable (replay X calls st)) = Some (factory_get X config N))
  /\ (~ In (false, N) calls ->
        JsMap.get N (unavailable (replay X calls st)) = JsMap.get N (unavailable st)).
Proof.
  intros Hf. destruct (replay_get calls st config N Hf) as [Ha Hu].
  pose proof (called_In true N calls) as Ht.
  pose proof (called_In false N calls) as Hfl.
  destruct (existsb (fun c => Bool.eqb (fst c) true && String.eqb (snd c) N) calls);
    destruct (existsb (fun c => Bool.eqb (fst c) false && String.eqb (snd c) N) calls);
    rewrite Ha, Hu; repeat split; intros H; try reflexivity;
    exfalso; intuition congruence.
Qed.

Lemma sequence_all_fulfilled (chains : list (ChainData World)) :
  (forall c, In c chains -> forall w, fst (function c (data c) w) = Fulfilled) ->
  forall st w,
    fst (sequence chains (success X) (fallback X) st w)
    = replay X (map (fun c => (true, data c)) chains) st.
Proof.
  induction chains as [|c chains IH]; intros Hall st w; [reflexivity|].
  rewrite sequence_step, (Hall c (or_introl eq_refl) w). cbn [is_fulfilled].
  rewrite IH by (intros c' Hc'; apply Hall; now right). reflexivity.
Qed.

Lemma replay_success_fresh (names : list string) : forall st config,
  factory st = Some config ->
  NoDup (JsMap.keys (available st) ++ names) ->
  JsMap.entries (available (replay X (map (fun N => (true, N)) names) st))
  = JsMap.entries (available st) ++ map (fun N => (N, factory_get X config N)) names
  /\ unavailable (replay X (map (fun N => (true, N)) names) st) = unavailable st.
Proof.
  unfold replay. induction names as [|N names IH]; intros st config Hf Hnd.
  - cbn. now rewrite app_nil_r.
  - cbn [map fold_left fst snd].
    destruct (success_maps World X N st config Hf) as [Ea Eu].
    assert (Hf1 : factory (success X N st) = Some config).
    { destruct (success_frame World X N st) as (_ & -> & _). exact Hf. }
    assert (HN : ~ In N (map fst (JsMap.entries (available st)))).
    { apply NoDup_remove_2 in Hnd. intros Hin. apply Hnd. apply in_or_app. now left. }
    assert (Eent : JsMap.entries (available (success X N st))
                   = JsMap.entries (available st) ++ [(N, factory_get X config N)]).
    { rewrite Ea. unfold JsMap.set. cbn [JsMap.entries]. now apply set_entry_fresh. }
    destruct (IH (success X N st) config Hf1) as [Ha Hu].
    + unfold JsMap.keys. rewrite Eent, map_app, <- app_assoc. exact Hnd.
    + rewrite Ha, Hu, Eent, Eu, <- app_assoc. split; reflexivity.
Qed.

Lemma getListOfPrepareFunctions_fulfilled (tools : Dict (ToolEntry World)) :
  (forall N e, In (N, e) tools ->
     exists cls, class (unified e) = Some cls
                 /\ forall w, fst (prepare_of cls N w) = Fulfilled) ->
  exists l,
    getListOfPrepareFunctions (map (fun kv => (fst kv, unified (snd kv))) tools) = inr l
    /\ forall c, In c l -> forall w, fst (function c (data c) w) = Fulfilled.
Proof.
  induction tools as [|[k e] tools IH]; intros Hall.
  - exists []. split; [reflexivity | intros c []].
  - destruct IH as (l & Hl & Hful); [intros N e' Hin; apply Hall; now right|].
    destruct (Hall k e (or_introl eq_refl)) as (cls & Hcls & Hk).
    exists ({| function := prepare_of cls; data := k |} :: l). split.
    + cbn [map getListOfPrepareFunctions fst snd]. now rewrite Hcls, Hl.
    + intros c [<-|Hin]; [exact Hk | now apply Hful].
Qed.

(** X12 ([prepare] when no hook fails).  The registry maps are empty, the
    validation passes, and every entry of the merged configuration has a
    class whose [prepare] hook (the no-op when it has none) is fulfilled.
    Then [prepare] resolves, [available] holds exactly the configured names
    in the order of the configuration, and [unavailable] stays empty. *)
Theorem prepare_all_fulfilled st w :
  JsMap.entries (toolsAvailable st) = [] ->
  JsMap.entries (toolsUnavailable st) = [] ->
  validateTools X st = None ->
  (forall N e, In (N, e) (merged_tools X (config_tools st)) ->
     exists cls, class (unified e) = Some cls
                 /\ forall w0, fst (prepare_of cls N w0) = Fulfilled) ->
  exists st' w',
    prepare X st w = Resolved st' w'
    /\ JsMap.keys (available st') = dict_keys (merged_tools X (config_tools st))
    /\ JsMap.entries (unavailable st') = [].
Proof.
  intros Ha Hu Hv Hall.
  set (merged := merged_tools X (config_tools st)) in *.
  set (st1 := set_config_tools (Some merged) st).
  set (st2 := set_factory (Some (prepareConfig st1)) st1).
  assert (Hnd : NoDup (dict_keys merged)) by apply merged_tools_NoDup.
  assert (Hcfg : prepareConfig st1 = map (fun kv => (fst kv, unified (snd kv))) merged).
  { apply prepareConfig_unified; [reflexivity | exact Hnd]. }
  destruct (getListOfPrepareFunctions_fulfilled merged Hall) as (l & Hl & Hful).
  rewrite <- Hcfg in Hl.
  pose proof (prepare_runs World X st w l Hv Hl) as Hp. fold merged st1 st2 in Hp.
  do 2 eexists. split; [exact Hp|].
  rewrite (sequence_all_fulfilled l Hful st2 w).
  assert (Hnames : map (@data World) l = dict_keys merged).
  { rewrite (getListOfPrepareFunctions_names World _ _ Hl), Hcfg. apply unified_keys. }
  assert (Hcalls : map (fun c : ChainData World => (true, data c)) l
                   = map (fun N => (true, N)) (dict_keys merged)).
  { rewrite <- Hnames, map_map. reflexivity. }
  rewrite Hcalls.
  destruct (replay_success_fresh (dict_keys merged) st2 (prepareConfig st1) eq_refl)
    as [Eavail Eun].
  - unfold JsMap.keys. cbn [available toolsAvailable st2 st1 set_factory set_config_tools].
    rewrite Ha. exact Hnd.
  - split.
    + unfold JsMap.keys. rewrite Eavail.
      cbn [available toolsAvailable st2 st1 set_factory set_config_tools].
      rewrite Ha, app_nil_l, map_map. cbn [fst]. apply map_id.
    + rewrite Eun. exact Hu.
Qed.

(** X14 ([prepare], what the registry holds).  After a [prepare] that
    started with empty registry maps and resolved, each map has one entry
    per name, and whatever tool either map holds under a name is the tool
    the factory gives for that very name from the unified configuration,
    the name being a configured one. *)
Theorem prepare_values_from_factory st w st' w' :
  JsMap.entries (toolsAvailable st) = [] ->
  JsMap.entries (toolsUnavailable st) = [] ->
  prepare X st w = Resolved st' w' ->
  exists config,
    factory st' = Some config
    /\ dict_keys config = dict_keys (merged_tools X (config_tools st))
    /\ JsMap.ok (available st') = true
    /\ JsMap.ok (unavailable st') = true
    /\ forall N tool,
         JsMap.get N (available st') = Some tool \/ JsMap.get N (unavailable st') = Some tool ->
         tool = factory_get X config N /\ dict_has N config = true.
Proof.
  intros Ha Hu Hp.
  destruct (prepare_resolved World X st w st' w' Hp) as [l [Hl Hs]].
  set (merged := merged_tools X (config_tools st)) in *.
  set (st1 := set_config_tools (Some merged) st) in *.
  set (st2 := set_factory (Some (prepareConfig st1)) st1) in *.
  assert (Hcfg : prepareConfig st1 = map (fun kv => (fst kv, unified (snd kv))) merged).
  { apply prepareConfig_unified; [reflexivity | apply merged_tools_NoDup]. }
  assert (Hnames : map (@data World) l = dict_keys (prepareConfig st1)).
  { apply getListOfPrepareFunctions_names. exact Hl. }
  destruct (sequence_replay l st2 w) as (calls & Hrep & Hcalls).
  rewrite Hs in Hrep. cbn [fst] in Hrep. subst st'.
  exists (prepareConfig st1). split; [|split; [|split; [|split]]].
  - rewrite replay_factory. reflexivity.
  - rewrite Hcfg. apply unified_keys.
  - apply replay_ok; unfold JsMap.ok, JsMap.keys;
      cbn [available unavailable toolsAvailable toolsUnavailable st2 st1
           set_factory set_config_tools]; rewrite ?Ha, ?Hu; reflexivity.
  - apply replay_ok; unfold JsMap.ok, JsMap.keys;
      cbn [available unavailable toolsAvailable toolsUnavailable st2 st1
           set_factory set_config_tools]; rewrite ?Ha, ?Hu; reflexivity.
  - intros N tool Hget.
    destruct (replay_get calls st2 (prepareConfig st1) N eq_refl) as [Ea Eu].
    assert (Hin : forall flag, In (flag, N) calls -> dict_has N (prepareConfig st1) = true).
    { intros flag Hin. apply dict_has_In. rewrite <- Hnames, <- Hcalls.
      apply (in_map snd) in Hin. exact Hin. }
    destruct Hget as [Hget|Hget].
    + rewrite Ea in Hget. destruct (existsb _ calls) eqn:E.
      * injection Hget as <-. apply called_In in E. split; [reflexivity | now apply (Hin true)].
      * unfold JsMap.get in Hget.
        cbn [available toolsAvailable st2 st1 set_factory set_config_tools] in Hget.
        rewrite Ha in Hget. discriminate.
    + rewrite Eu in Hget. destruct (existsb _ calls) eqn:E.
      * injection Hget as <-. apply called_In in E. split; [reflexivity | now apply (Hin false)].
      * unfold JsMap.get in Hget.
        cbn [unavailable toolsUnavailable st2 st1 set_factory set_config_tools] in Hget.
        rewrite Hu in Hget. discriminate.
Qed.

End Callbacks.

(** ** The guard against an empty configuration *)

Section Guard.

Variable World : Type.
Variable X : Collaborators World.

Lemma prepare_with_deepMerge (st : Tools World) (w : World) :
  prepare_with X (@deepMerge World) st w = prepare X st w.
Proof. reflexivity. Qed.


End Guard.

(** ** The further properties at work on the concrete plugins *)

Module MoreChecks.

Import Demo.


(** C5, the claim refuted.  [toString] is not a built-in name and its value
    has the wrong shape, yet the validation returns normally, because
    [in] finds the name on [Object.prototype]; and under [header] the value
    [null] makes the validation throw a [TypeError], not the configuration
    error naming [header]. *)
Lemma validateTools_inherited_name_and_null :
  existsb (String.eqb "toString") builtin_names = false
  /\ valid_entry (Primitive : ToolEntry World) = false
  /\ validateTools X (new_Tools (Some [("toString", Primitive)])) = None
  /\ validateTools X (new_Tools (Some [("header", Nullish)])) = Some TypeError.
Proof.
  repeat split; vm_compute; reflexivity.
Qed.



(** X1 on the registry with a tool of every type: only [quote] is a block. *)
Lemma block_view_correct_witness :
  exists view,
    deref (fst (block mixed)) (snd (block mixed)) = Some view
    /\ available (snd (block mixed)) = available mixed
    /\ unavailable (snd (block mixed)) = unavailable mixed
    /\ forall N tool,
         JsMap.get N view = Some tool
         <-> JsMap.get N (available mixed) = Some tool /\ type tool = Block.
Proof.
  exact (block_view_correct World mixed eq_refl eq_refl).
Defined.

(** X2 on the same registry. *)
Lemma views_disjoint_witness :
  exists vi vb,
    deref (fst (inline mixed)) (snd (block (snd (inline mixed)))) = Some vi
    /\ deref (fst (block (snd (inline mixed)))) (snd (block (snd (inline mixed)))) = Some vb
    /\ fst (block (snd (inline mixed))) = S (fst (inline mixed))
    /\ (forall N, JsMap.has N vi = true -> JsMap.has N vb = false)
    /\ (forall N tool, JsMap.get N (available mixed) = Some tool -> type tool = Tune ->
          JsMap.has N vi = false /\ JsMap.has N vb = false).
Proof.
  exact (views_disjoint World mixed eq_refl eq_refl eq_refl).
Defined.


(** X4 on the same registry, asked for the internal block tools. *)
Lemma getInternal_membership_witness :
  exists view,
    deref (fst (getInternal (Some Block) mixed)) (snd (getInternal (Some Block) mixed))
    = Some view
    /\ forall N tool,
         JsMap.get N view = Some tool
         <-> JsMap.get N (available mixed) = Some tool
             /\ tool_isInternal tool = true
             /\ (Some Block = None \/ Some Block = Some Block \/ Some Block = Some (type tool)).
Proof.
  exact (getInternal_membership World (Some Block) mixed eq_refl).
Defined.

(** X5 on the same registry, the default block being [quote]. *)
Lemma defaultTool_lookup_witness :
  snd (defaultTool (Some "quote") mixed) = snd (block mixed)
  /\ _blockTools (snd (defaultTool (Some "quote") mixed)) = Some (List.length (heap mixed))
  /\ forall tool,
       fst (defaultTool (Some "quote") mixed) = Some tool
       <-> exists N, Some "quote" = Some N
                     /\ JsMap.get N (available mixed) = Some tool
                     /\ type tool = Block.
Proof.
  exact (defaultTool_lookup World (Some "quote") mixed eq_refl eq_refl).
Defined.

(** X6: [defaultTool] read before [prepare]; afterwards [paragraph] is
    available and is still not found. *)
Lemma defaultTool_early_read_witness :
  JsMap.has "paragraph" (available (after_early_default (Some three_tools))) = true
  /\ defaultTool (Some "paragraph") (after_early_default (Some three_tools))
     = (None, after_early_default (Some three_tools)).
Proof.
  split; [vm_compute; reflexivity|].
  assert (Hp : prepare X (snd (defaultTool (Some "paragraph") (new_Tools (Some three_tools)))) []
               = Resolved (after_early_default (Some three_tools))
                   ["prepare header"; "prepare image"; "prepare list"]).
  { vm_compute. reflexivity. }
  exact (defaultTool_early_read World X (Some "paragraph") (new_Tools (Some three_tools)) []
           (after_early_default (Some three_tools)) _ eq_refl eq_refl Hp (Some "paragraph")).
Defined.

(** X7 on the three user tools. *)
Lemma prepareConfig_entries_witness :
  dict_keys (prepareConfig (new_Tools (Some three_tools))) = dict_keys three_tools
  /\ forall N e,
       In (N, e) three_tools ->
       dict_get N (prepareConfig (new_Tools (Some three_tools)))
       = Some match e with
              | Settings s => s
              | Constructable c =>
                  {| class := Some (ClassFunction c); isInternal := None;
                     inlineToolbar := None |}
              | Primitive =>
                  {| class := Some ClassPrimitive; isInternal := None;
                     inlineToolbar := None |}
              | Nullish =>
                  {| class := None; isInternal := None; inlineToolbar := None |}
              end.
Proof.
  apply (prepareConfig_entries World (new_Tools (Some three_tools)) three_tools).
  - reflexivity.
  - apply nodupb_NoDup. vm_compute. reflexivity.
Defined.

(** X11: [quote] reported to [success] and then to [fallback]. *)
Lemma callbacks_only_add_witness :
  (In (true, "quote") [(true, "quote"); (false, "quote")] ->
     JsMap.get "quote" (available (replay X [(true, "quote"); (false, "quote")] mixed))
     = Some (factory_get X [] "quote"))
  /\ (~ In (true, "quote") [(true, "quote"); (false, "quote")] ->
        JsMap.get "quote" (available (replay X [(true, "quote"); (false, "quote")] mixed))
        = JsMap.get "quote" (available mixed))
  /\ (In (false, "quote") [(true, "quote"); (false, "quote")] ->
        JsMap.get "quote" (unavailable (replay X [(true, "quote"); (false, "quote")] mixed))
        = Some (factory_get X [] "quote"))
  /\ (~ In (false, "quote") [(true, "quote"); (false, "quote")] ->
        JsMap.get "quote" (unavailable (replay X [(true, "quote"); (false, "quote")] mixed))
        = JsMap.get "quote" (unavailable mixed)).
Proof.
  exact (callbacks_only_add World X [(true, "quote"); (false, "quote")] mixed [] "quote"
           eq_refl).
Defined.

(** X12 on two user tools whose hooks succeed. *)
Lemma prepare_all_fulfilled_witness :
  exists st' w',
    prepare X (new_Tools (Some two_tools)) [] = Resolved st' w'
    /\ JsMap.keys (available st')
       = dict_keys (merged_tools X (config_tools (new_Tools (Some two_tools))))
    /\ JsMap.entries (unavailable st') = [].
Proof.
  apply (prepare_all_fulfilled World X (new_Tools (Some two_tools)) []).
  - reflexivity.
  - reflexivity.
  - vm_compute. reflexivity.
  - intros N e Hin. vm_compute in Hin.
    repeat (destruct Hin as [Hin|Hin];
            [injection Hin as <- <-; eexists; split;
             [reflexivity | intros w0; reflexivity]|]).
    destruct Hin.
Defined.

(** X13 on the registry whose tool [note] has a [reset]. *)
Lemma destroy_after_prepare_witness :
  destroy (after_prepare (Some note_config)) ["typed"] = ["typed"].
Proof.
  assert (Hp : prepare X (new_Tools (Some note_config)) []
               = Resolved (after_prepare (Some note_config)) []).
  { vm_compute. reflexivity. }
  exact (destroy_after_prepare World X (Some note_config) []
           (after_prepare (Some note_config)) [] Hp ["typed"]).
Defined.

(** X14 on the three user tools. *)
Lemma prepare_values_from_factory_witness :
  exists config,
    factory (after_prepare (Some three_tools)) = Some config
    /\ dict_keys config
       = dict_keys (merged_tools X (config_tools (new_Tools (Some three_tools))))
    /\ JsMap.ok (available (after_prepare (Some three_tools))) = true
    /\ JsMap.ok (unavailable (after_prepare (Some three_tools))) = true
    /\ forall N tool,
         JsMap.get N (available (after_prepare (Some three_tools))) = Some tool
         \/ JsMap.get N (unavailable (after_prepare (Some three_tools))) = Some tool ->
         tool = factory_get X config N /\ dict_has N config = true.
Proof.
  assert (Hp : prepare X (new_Tools (Some three_tools)) []
               = Resolved (after_prepare (Some three_tools))
                   ["prepare header"; "prepare image"; "prepare list"]).
  { vm_compute. reflexivity. }
  exact (prepare_values_from_factory World X (new_Tools (Some three_tools)) []
           (after_prepare (Some three_tools)) _ eq_refl eq_refl Hp).
Defined.

End MoreChecks.
